(** * The statistical inference engine of the experiment platform

  A shallow embedding of [src/services/statistics.js]: descriptive
  statistics, Welch's t-test, the Student-t CDF, the regularized
  incomplete beta function with its continued fraction, and the Lanczos
  log-gamma evaluator.

  JavaScript numbers are IEEE 754 binary64 values, so they are modelled by
  Rocq's primitive [float] (same format, round to nearest even, a single
  NaN).  [+ - * /], [Math.sqrt] and [Math.abs] are the IEEE operations.
  [Math.pow], [Math.exp], [Math.log] and [Math.sin] are left to the engine
  by ECMA-262 ("implementation-approximated"), so they are parameters of
  the development, gathered in [MathLib]. *)

From Stdlib Require Import String Floats ZArith List Bool Arith Lia.
Import ListNotations.

Set Warnings "-inexact-float".
Local Open Scope float_scope.

(** ** The JavaScript side: numbers, arrays, [Math] *)

Module JS.

(** [arr.length] as a number.  Array lengths are below [2^32], so the
    conversion is exact. *)
Definition length_num (arr : list float) : float :=
  of_uint63 (Uint63.of_Z (Z.of_nat (length arr))).

(** [arr.reduce(f, init)]: a left fold starting from [init]. *)
Definition reduce {A B : Type} (f : B -> A -> B) (init : B) (arr : list A) : B :=
  fold_left f arr init.

(** An integer used as a number, as in [z + i]. *)
Definition num_of_nat (n : nat) : float := of_uint63 (Uint63.of_Z (Z.of_nat n)).

(** [c[i]]: reading past the end gives [undefined], which arithmetic
    turns into NaN. *)
Definition index (c : list float) (i : nat) : float := nth i c nan.

(** The part of [Math] whose results the language leaves to the engine. *)
Record MathLib : Type := {
  Math_pow : float -> float -> float;
  Math_exp : float -> float;
  Math_log : float -> float;
  Math_sin : float -> float
}.

Definition Math_PI : float := 3.141592653589793.
Definition Math_sqrt : float -> float := PrimFloat.sqrt.
Definition Math_abs : float -> float := PrimFloat.abs.

(** ECMA-262, Number::exponentiate: a base of [+0] with a positive
    exponent gives [+0] exactly.  This is the only exact case of [Math.pow]
    that a result below relies on. *)
Definition pow_zero_exact (M : MathLib) : Prop := Math_pow M 0 2 = 0.

(** A [for (let i = start; cond(i); i = incr(i)) body] loop whose body may
    [break].  Each test of the condition costs one unit of [fuel]; the
    loop returns the final state and the number of bodies it ran, or
    [None] when the fuel is spent first. *)
Fixpoint for_loop {St : Type} (fuel : nat) (cond : float -> bool)
    (incr : float -> float) (body : float -> St -> St * bool)
    (i : float) (s : St) : option (St * nat) :=
  match fuel with
  | O => None
  | S fuel' =>
      if cond i then
        let '(s', broke) := body i s in
        if broke then Some (s', 1%nat)
        else
          match for_loop fuel' cond incr body (incr i) s' with
          | Some (s'', n) => Some (s'', S n)
          | None => None
          end
      else Some (s, 0%nat)
  end.

End JS.
Import JS.

(** Sequencing of computations that may run out of fuel. *)
Definition bind {A B : Type} (m : option A) (k : A -> option B) : option B :=
  match m with
  | Some a => k a
  | None => None
  end.

Notation "x <- m ;; k" := (bind m (fun x => k))
  (at level 61, m at next level, right associativity).

(** ** Descriptive statistics *)

Definition mean (arr : list float) : float :=
  if Nat.eqb (length arr) 0 then 0
  else reduce (fun sum val => sum + val) 0 arr / length_num arr.

(** ** Continued fraction for the incomplete beta function

    [betaCF] uses no engine-defined function: it is plain IEEE arithmetic. *)

Definition maxIterations : float := 100.
Definition epsilon : float := 1e-10.

(** [if (Math.abs(v) < epsilon) v = epsilon;] *)
Definition clamp (v : float) : float :=
  if Math_abs v <? epsilon then epsilon else v.

(** The variables the loop of [betaCF] updates. *)
Record cf_state : Type := { cf_c : float; cf_d : float; cf_h : float }.

(** The value [del] that one run of the loop body computes from [st]. *)
Definition betaCF_del (x a b : float) (i : float) (st : cf_state) : float :=
  let qab := a + b in
  let qap := a + 1 in
  let qam := a - 1 in
  let c := cf_c st in
  let d := cf_d st in
  let m2 := 2 * i in
  let aa := (i * (b - i) * x) / ((qam + m2) * (a + m2)) in
  let d := 1 + aa * d in
  let d := clamp d in
  let c := 1 + aa / c in
  let c := clamp c in
  let d := 1 / d in
  let aa := ((- (a + i)) * (qab + i) * x) / ((a + m2) * (qap + m2)) in
  let d := 1 + aa * d in
  let d := clamp d in
  let c := 1 + aa / c in
  let c := clamp c in
  let d := 1 / d in
  d * c.

(** One run of the loop body: the new state, and whether it ends in [break]. *)
Definition betaCF_body (x a b : float) (i : float) (st : cf_state) : cf_state * bool :=
  let qab := a + b in
  let qap := a + 1 in
  let qam := a - 1 in
  let c := cf_c st in
  let d := cf_d st in
  let h := cf_h st in
  let m2 := 2 * i in
  (* Even step *)
  let aa := (i * (b - i) * x) / ((qam + m2) * (a + m2)) in
  let d := 1 + aa * d in
  let d := clamp d in
  let c := 1 + aa / c in
  let c := clamp c in
  let d := 1 / d in
  let h := h * (d * c) in
  (* Odd step *)
  let aa := ((- (a + i)) * (qab + i) * x) / ((a + m2) * (qap + m2)) in
  let d := 1 + aa * d in
  let d := clamp d in
  let c := 1 + aa / c in
  let c := clamp c in
  let d := 1 / d in
  let del := d * c in
  let h := h * del in
  ({| cf_c := c; cf_d := d; cf_h := h |}, Math_abs (del - 1) <? epsilon).

(** The state on entry to the loop. *)
Definition betaCF_init (x a b : float) : cf_state :=
  let qab := a + b in
  let qap := a + 1 in
  let c := 1 in
  let d := 1 - (qab * x) / qap in
  let d := clamp d in
  let d := 1 / d in
  let h := d in
  {| cf_c := c; cf_d := d; cf_h := h |}.

(** [betaCF] with the number of loop bodies it ran. *)
Definition betaCF_run (fuel : nat) (x a b : float) : option (cf_state * nat) :=
  for_loop fuel (fun i => i <=? maxIterations) (fun i => i + 1)
    (betaCF_body x a b) 1 (betaCF_init x a b).

Definition betaCF (fuel : nat) (x a b : float) : option float :=
  r <- betaCF_run fuel x a b ;; Some (cf_h (fst r)).

(** ** Log-gamma (Lanczos) *)

Definition lanczos_g : nat := 7.

Definition lanczos_c : list float :=
  [ 0.99999999999980993; 676.5203681218851; -1259.1392167224028;
    771.32342877765313; -176.61502916214059; 12.507343278686905;
    -0.13857109526572012; 9.9843695780195716e-6; 1.5056327351493116e-7 ].

(** The result record of [independentTTest]. *)
Record TestResult : Type := {
  mean1 : float;
  mean2 : float;
  std1 : float;
  std2 : float;
  tStatistic : float;
  degreesOfFreedom : float;
  pValue : float;
  isSignificant : bool;
  effectSize : float
}.

Section Engine.

Variable M : MathLib.

Definition standardDeviation (arr : list float) : float :=
  if Nat.ltb (length arr) 2 then 0
  else
    let avg := mean arr in
    let squaredDiffs := map (fun val => Math_pow M (val - avg) 2) arr in
    let variance :=
      reduce (fun sum val => sum + val) 0 squaredDiffs / (length_num arr - 1) in
    Math_sqrt variance.

(** The direct-series branch of [gammaLn] (the code after the [if]). *)
Definition gammaLn_series (z : float) : float :=
  let z := z - 1 in
  let x :=
    fold_left
      (fun x i => x + index lanczos_c i / (z + num_of_nat i))
      (seq 1 (lanczos_g + 1)) (index lanczos_c 0) in
  let t := z + num_of_nat lanczos_g + 0.5 in
  0.5 * Math_log M (2 * Math_PI) + (z + 0.5) * Math_log M t - t + Math_log M x.

(** [gammaLn] calls itself; [fuel] bounds the depth of the call stack. *)
Fixpoint gammaLn (fuel : nat) (z : float) : option float :=
  match fuel with
  | O => None
  | S fuel' =>
      if z <? 0.5 then
        r <- gammaLn fuel' (1 - z) ;;
        Some (Math_log M (Math_PI / Math_sin M (Math_PI * z)) - r)
      else Some (gammaLn_series z)
  end.

(** ** Regularized incomplete beta function *)

Definition incompleteBeta (fuel : nat) (x a b : float) : option float :=
  if x =? 0 then Some 0
  else if x =? 1 then Some 1
  else
    gab <- gammaLn fuel (a + b) ;;
    ga <- gammaLn fuel a ;;
    gb <- gammaLn fuel b ;;
    let bt :=
      Math_exp M (gab - ga - gb + a * Math_log M x + b * Math_log M (1 - x)) in
    if x <? (a + 1) / (a + b + 2) then
      cf <- betaCF fuel x a b ;; Some (bt * cf / a)
    else
      cf <- betaCF fuel (1 - x) b a ;; Some (1 - bt * cf / b).

(** ** Student-t CDF *)

Definition tCDF (fuel : nat) (t df : float) : option float :=
  let x := df / (df + t * t) in
  ib <- incompleteBeta fuel x (df / 2) 0.5 ;;
  Some (1 - 0.5 * ib).

(** ** Welch's t-test *)

Definition independentTTest (fuel : nat) (sample1 sample2 : list float)
    : option TestResult :=
  let n1 := length_num sample1 in
  let n2 := length_num sample2 in
  let mean1 := mean sample1 in
  let mean2 := mean sample2 in
  let std1 := standardDeviation sample1 in
  let std2 := standardDeviation sample2 in
  let var1 := std1 * std1 in
  let var2 := std2 * std2 in
  let se := Math_sqrt (var1 / n1 + var2 / n2) in
  let tStatistic := (mean1 - mean2) / se in
  let numerator := Math_pow M (var1 / n1 + var2 / n2) 2 in
  let denominator :=
    Math_pow M (var1 / n1) 2 / (n1 - 1) + Math_pow M (var2 / n2) 2 / (n2 - 1) in
  let df := numerator / denominator in
  cdf <- tCDF fuel (Math_abs tStatistic) df ;;
  let pValue := 2 * (1 - cdf) in
  Some {| mean1 := mean1;
          mean2 := mean2;
          std1 := std1;
          std2 := std2;
          tStatistic := tStatistic;
          degreesOfFreedom := df;
          pValue := pValue;
          isSignificant := pValue <? 0.05;
          effectSize := (mean1 - mean2) / Math_sqrt ((var1 + var2) / 2) |}.

(** A call [independentTTest(sample1, sample2, alpha)]: the function
    declares two parameters, and JavaScript drops an argument that has no
    parameter to receive it. *)
Definition independentTTest_call3 (fuel : nat) (sample1 sample2 : list float)
    (alpha : float) : option TestResult :=
  independentTTest fuel sample1 sample2.

End Engine.

(** A stand-in for the engine's [Math], in the way the repository's mock
    provider stands in for a live one: [pow] squares by multiplication
    (the only exponent the code uses is 2), the transcendental functions are
    left unmodelled and answer NaN.  It serves to run the model on concrete
    samples; the theorems below hold for every [MathLib]. *)
Definition StubMath : MathLib :=
  {| Math_pow := fun x y => if y =? 2 then x * x else nan;
     Math_exp := fun _ => nan;
     Math_log := fun _ => nan;
     Math_sin := fun _ => nan |}.

(** ** Reference definitions for the specification's formulas *)

(** The sum of a sequence, accumulated from the left starting at 0. *)
Fixpoint sum_from (acc : float) (l : list float) : float :=
  match l with
  | [] => acc
  | x :: l' => sum_from (acc + x) l'
  end.

Definition sigma (l : list float) : float := sum_from 0 l.

(** [sqrt (sigma (x - mean)^2 / (n - 1))], the Bessel-corrected sample
    standard deviation as the specification writes it. *)
Definition bessel_sd (M : MathLib) (arr : list float) : float :=
  Math_sqrt
    (sigma (map (fun x => Math_pow M (x - mean arr) 2) arr) / (length_num arr - 1)).

(** ** The loop of [betaCF], unrolled

    [for_trace k i s] is the loop variable and state after [k] bodies when
    no [break] is taken; [for_broke k i s] tells whether body number [k + 1]
    ends in [break]. *)
Fixpoint for_trace {St : Type} (incr : float -> float)
    (body : float -> St -> St * bool) (k : nat) (i : float) (s : St) : float * St :=
  match k with
  | O => (i, s)
  | S k' => for_trace incr body k' (incr i) (fst (body i s))
  end.

Definition for_broke {St : Type} (incr : float -> float)
    (body : float -> St -> St * bool) (k : nat) (i : float) (s : St) : bool :=
  let '(i', s') := for_trace incr body k i s in snd (body i' s').

Definition cf_after (x a b : float) (k : nat) : cf_state :=
  snd (for_trace (fun i => i + 1) (betaCF_body x a b) k 1 (betaCF_init x a b)).

Definition cf_index (k : nat) : float := Nat.iter k (fun i => i + 1) 1.

(** [del] as computed by body number [k + 1]. *)
Definition cf_del (x a b : float) (k : nat) : float :=
  betaCF_del x a b (cf_index k) (cf_after x a b k).




(** ** IEEE 754 values behind the floats *)

Definition half_sf : spec_float := S754_finite false 4503599627370496 (-53).
Definition one_sf : spec_float := S754_finite false 4503599627370496 (-52).

(** Equal, or zeros that differ in sign only. *)
Definition sf_eqz (x y : spec_float) : Prop :=
  x = y \/ exists s s', x = S754_zero s /\ y = S754_zero s'.

(** * The mock provider

    [src/services/llm/providers/mock.js].  A string is the list of its
    UTF-16 code units.  The hash works on integers below [2^53] in
    magnitude, on which the arithmetic of JavaScript numbers is exact, so it
    is modelled on [Z], with the 32-bit wrap-around of [<<] and [&] written
    out. *)

Module Mock.
Local Open Scope Z_scope.

(** [ToInt32]: the signed 32-bit reading of an integer. *)
Definition to_int32 (z : Z) : Z := (z + 2 ^ 31) mod 2 ^ 32 - 2 ^ 31.

(** One run of the loop body of [simpleHash]. *)
Definition simpleHash_step (hash char : Z) : Z :=
  let hash := (to_int32 (Z.shiftl (to_int32 hash) 5) - hash) + char in
  Z.land (to_int32 hash) (to_int32 hash).

Definition simpleHash (str : list Z) : Z :=
  let sampleSize := Z.min (Z.of_nat (length str)) 1000 in
  let hash := fold_left simpleHash_step (firstn (Z.to_nat sampleSize) str) 0 in
  Z.abs hash.

Definition baseRating (imageBase64 : list Z) : Z :=
  3 + Z.rem (simpleHash imageBase64) 5.

(** The polynomial hash with multiplier 31. *)
Definition poly31 (l : list Z) : Z := fold_left (fun h c => 31 * h + c) l 0.

End Mock.


(** * Regular expressions and [extractRating]

    The Ollama provider, whose source is the second document of
    [src/services/llm/providers/mock.js]. *)

Module Regex.
Local Open Scope Z_scope.

(** The fragment of regular expressions that the sources use. *)
Inductive regex : Type :=
| Lit (c : Z)
| Class (lo hi : Z)
| WordBoundary
| Seq (r1 r2 : regex)
| Alt (r1 r2 : regex)
| Group (r : regex).

(** A position of the matcher: the code unit before it, the input from it
    on, and what group 1 has captured. *)
Record mstate : Type := {
  st_prev : option Z;
  st_rest : list Z;
  st_cap : option (list Z)
}.

(** [\w]: an ASCII letter, a digit or the underscore. *)
Definition is_word (c : Z) : bool :=
  ((48 <=? c) && (c <=? 57)) || ((65 <=? c) && (c <=? 90))
  || (c =? 95) || ((97 <=? c) && (c <=? 122)).

Definition is_word_at (c : option Z) : bool :=
  match c with Some c => is_word c | None => false end.

(** The backtracking matcher of ECMA-262: [k] is the continuation that
    matches the rest of the pattern; [None] is failure. *)
Fixpoint rmatch {A : Type} (r : regex) (x : mstate) (k : mstate -> option A)
    : option A :=
  match r with
  | Lit c =>
      match st_rest x with
      | c' :: rest =>
          if c' =? c
          then k {| st_prev := Some c'; st_rest := rest; st_cap := st_cap x |}
          else None
      | [] => None
      end
  | Class lo hi =>
      match st_rest x with
      | c' :: rest =>
          if (lo <=? c') && (c' <=? hi)
          then k {| st_prev := Some c'; st_rest := rest; st_cap := st_cap x |}
          else None
      | [] => None
      end
  | WordBoundary =>
      if xorb (is_word_at (st_prev x)) (is_word_at (hd_error (st_rest x)))
      then k x else None
  | Seq r1 r2 => rmatch r1 x (fun y => rmatch r2 y k)
  | Alt r1 r2 =>
      match rmatch r1 x k with
      | Some a => Some a
      | None => rmatch r2 x k
      end
  | Group r =>
      rmatch r x (fun y =>
        k {| st_prev := st_prev y;
             st_rest := st_rest y;
             st_cap :=
               Some (firstn (length (st_rest x) - length (st_rest y)) (st_rest x)) |})
  end.

(** [RegExp.prototype.exec] without flags: the first start position, from
    the left, at which the pattern matches. *)
Fixpoint exec (r : regex) (prev : option Z) (s : list Z) : option mstate :=
  match rmatch r {| st_prev := prev; st_rest := s; st_cap := None |} Some with
  | Some y => Some y
  | None =>
      match s with
      | [] => None
      | c :: s' => exec r (Some c) s'
      end
  end.

End Regex.

Module Ollama.
Import Regex.
Local Open Scope Z_scope.

Definition is_digit (c : Z) : bool := (48 <=? c) && (c <=? 57).

(** The value of the leading run of decimal digits. *)
Fixpoint digits_value (acc : Z) (s : list Z) : Z :=
  match s with
  | c :: s' => if is_digit c then digits_value (10 * acc + (c - 48)) s' else acc
  | [] => acc
  end.

(** [parseInt(s, 10)] for a string with no leading white space or sign, the
    only kind group 1 of the pattern can hold; [None] is NaN. *)
Definition parseInt10 (s : list Z) : option Z :=
  match s with
  | c :: _ => if is_digit c then Some (digits_value 0 s) else None
  | [] => None
  end.

(** [/\b([1-9]|10)\b/] *)
Definition rating_re : regex :=
  Seq WordBoundary
    (Seq (Group (Alt (Class 49 57) (Seq (Lit 49) (Lit 48)))) WordBoundary).

(** [extractRating(response)]; the [console.warn] of the fallback is left
    out. *)
Definition extractRating (response : list Z) : option Z :=
  match exec rating_re None response with
  | Some y =>
      match st_cap y with
      | Some digits => parseInt10 digits
      | None => None
      end
  | None => Some 5
  end.

(** A word boundary between the code unit [prev] and the input [s]. *)
Definition boundary (prev : option Z) (s : list Z) : bool :=
  xorb (is_word_at prev) (is_word_at (hd_error s)).

(** The decimal numerals of 1 to 10. *)
Definition numeral (n : Z) : list Z :=
  if n =? 10 then [49; 48] else [48 + n].

End Ollama.



(** * More about numbers *)

(** A number that is neither NaN, nor infinite, nor zero. *)
Definition finite_nonzero (x : float) : bool :=
  PrimFloat.is_finite x && negb (PrimFloat.is_zero x).


(** The binary64 value of an integer [z] with [0 <= z < 2^53]. *)
Definition canonical (z : Z) : spec_float :=
  match z with
  | Zpos p =>
      S754_finite false (Z.to_pos (z * 2 ^ (53 - Zdigits2 z)%Z)) (Zdigits2 z - 53)
  | _ => S754_zero false
  end.

(** * The registry of providers and the hook [useExperiment]

    [src/services/llm/index.js] and the hook that imports it.  The hook
    is modelled by explicit state passing: its four state variables form a
    record, every [set...] call is a function on it, and [await] is the
    sequencing of the calls.  What the provider answers is given by an
    environment. *)

Module Registry.

(** [{ min, max }], the delay of the mock provider in milliseconds. *)
Record delay_range : Type := { delay_min : float; delay_max : float }.

(** A configuration object.  A field is [None] when it is absent,
    [undefined] or [null]: the cases in which [??] takes the default. *)
Record config : Type := {
  cfg_delay : option delay_range;
  cfg_baseUrl : option string;
  cfg_model : option string
}.

(** [{}], the default of the [config] parameters. *)
Definition empty_config : config :=
  {| cfg_delay := None; cfg_baseUrl := None; cfg_model := None |}.

(** An instance of one of the two provider classes, with its fields. *)
Inductive provider : Type :=
| MockProvider (name : string) (delay : delay_range)
| OllamaProvider (name baseUrl model : string).


(** The classes, as values of the registry. *)
Inductive provider_class : Type := MockClass | OllamaClass.

(** [new Provider(config)]: the two constructors. *)
Definition construct (c : provider_class) (cfg : config) : provider :=
  match c with
  | MockClass =>
      MockProvider "mock"
        (match cfg_delay cfg with
         | Some d => d
         | None => {| delay_min := 20; delay_max := 50 |}
         end)
  | OllamaClass =>
      OllamaProvider "ollama"
        (match cfg_baseUrl cfg with
         | Some u => u
         | None => "http://localhost:11434"
         end)
        (match cfg_model cfg with
         | Some m => m
         | None => "llama3.2-vision:latest"
         end)
  end.

(** The object [providers], in the order of its keys. *)
Definition providers : list (string * provider_class) :=
  [("mock"%string, MockClass); ("ollama"%string, OllamaClass)].

(** An own property of an object literal. *)
Fixpoint own_property {A : Type} (key : string) (obj : list (string * A))
    : option A :=
  match obj with
  | [] => None
  | (k, v) :: rest => if String.eqb k key then Some v else own_property key rest
  end.

(** [Object.keys(obj)] and [keys.join(', ')]. *)
Definition keys {A : Type} (obj : list (string * A)) : list string := map fst obj.

Definition join (sep : string) (l : list string) : string := String.concat sep l.

(** What [getProvider] does.  It returns an instance of a provider class,
    or throws its own [Error]; or the name is a member that [providers]
    inherits from [Object.prototype], all of which are truthy, so that the
    guard [if (!Provider)] does not fire and [new] is applied to it:
    - [constructor] is the function [Object], and [new Object(config)]
      returns the object [config] itself, which is no provider;
    - every other member is a built-in function that is no constructor, or
      ([__proto__]) the prototype object, and [new] raises a [TypeError]. *)
Inductive lookup : Type :=
| Returned (p : provider)
| ReturnedConfig (cfg : config)
| Thrown (message : string)
| TypeError.

Section Lookup.

(** The property names that the engine's [Object.prototype] defines. *)
Variable inherited : string -> bool.

Definition getProvider (providerName : string) (cfg : config) : lookup :=
  match own_property providerName providers with
  | Some Provider => Returned (construct Provider cfg)
  | None =>
      if inherited providerName then
        if String.eqb providerName "constructor" then ReturnedConfig cfg
        else TypeError
      else
        Thrown ("Unknown provider: " ++ providerName ++ ". Available: "
                ++ join ", " (keys providers))
  end.

End Lookup.

Definition listProviders : list string := keys providers.

(** The object that [getInfo()] returns. *)
Record info : Type := {
  info_name : string;
  info_description : string;
  info_supportsVision : bool;
  info_model : option string;
  info_baseUrl : option string
}.

Definition getInfo (p : provider) : info :=
  match p with
  | MockProvider _ _ =>
      {| info_name := "Mock Provider";
         info_description := "Simulated responses for testing";
         info_supportsVision := true;
         info_model := None;
         info_baseUrl := None |}
  | OllamaProvider _ baseUrl model =>
      {| info_name := "Ollama";
         info_description := "Local LLM inference using " ++ model;
         info_supportsVision := true;
         info_model := Some model;
         info_baseUrl := Some baseUrl |}
  end.

(** The names of [Object.prototype] in ECMA-262, for concrete runs. *)
Definition es_inherited (name : string) : bool :=
  existsb (String.eqb name)
    ["constructor"%string; "hasOwnProperty"%string; "isPrototypeOf"%string;
     "propertyIsEnumerable"%string; "toLocaleString"%string;
     "toString"%string; "valueOf"%string; "__proto__"%string;
     "__defineGetter__"%string; "__defineSetter__"%string;
     "__lookupGetter__"%string; "__lookupSetter__"%string].

End Registry.

Module Hook.
Import Registry.

(** What a call of [provider.rateImage] does: it resolves to a rating or
    rejects with an error. *)
Inductive rate_outcome : Type :=
| Rated (rating : float)
| Failed (message : string).

(** The world around the hook: whether the provider is available, what
    the call number [n] of [rateImage] (counted from 0) gives for an image
    and a question, and the message of the [TypeError] that the engine
    raises when the name looked up is a member of [Object.prototype]:
    from [new] on a value that is no constructor, or from the call of
    [isAvailable], which a configuration object does not have. *)
Record environment : Type := {
  env_available : bool;
  env_rate : list Z -> list Z -> nat -> rate_outcome;
  env_type_error : string -> string
}.

Record image_view : Type := {
  iv_ratings : list float;
  iv_mean : float;
  iv_std : float
}.

Record statistics_view : Type := {
  sv_tStatistic : float;
  sv_degreesOfFreedom : float;
  sv_pValue : float;
  sv_isSignificant : bool;
  sv_effectSize : float
}.

Record experiment_results : Type := {
  res_image1 : image_view;
  res_image2 : image_view;
  res_statistics : statistics_view;
  res_provider : info
}.

Record progress_view : Type := { current : float; total : float }.

(** The four state variables of the hook. *)
Record hook_state : Type := {
  isRunning : bool;
  progress : progress_view;
  results : option experiment_results;
  error : option string
}.

Definition initial_state : hook_state :=
  {| isRunning := false;
     progress := {| current := 0; total := 0 |};
     results := None;
     error := None |}.

Definition setIsRunning (v : bool) (st : hook_state) : hook_state :=
  {| isRunning := v; progress := progress st; results := results st;
     error := error st |}.

Definition setProgress (f : progress_view -> progress_view) (st : hook_state)
    : hook_state :=
  {| isRunning := isRunning st; progress := f (progress st);
     results := results st; error := error st |}.

Definition setResults (v : option experiment_results) (st : hook_state)
    : hook_state :=
  {| isRunning := isRunning st; progress := progress st; results := v;
     error := error st |}.

Definition setError (v : option string) (st : hook_state) : hook_state :=
  {| isRunning := isRunning st; progress := progress st;
     results := results st; error := v |}.

(** The variables of one rating loop: the array being filled, the hook
    state, the number of [rateImage] calls made so far, and the error that
    left the loop, if any. *)
Record collecting : Type := {
  col_ratings : list float;
  col_state : hook_state;
  col_calls : nat;
  col_thrown : option string
}.

(** The body of a rating loop. *)
Definition rate_body (env : environment) (image question : list Z)
    (i : float) (c : collecting) : collecting * bool :=
  match env_rate env image question (col_calls c) with
  | Rated rating =>
      ({| col_ratings := col_ratings c ++ [rating];
          col_state :=
            setProgress
              (fun p => {| current := current p + 1; total := total p |})
              (col_state c);
          col_calls := S (col_calls c);
          col_thrown := None |}, false)
  | Failed message =>
      ({| col_ratings := col_ratings c;
          col_state := col_state c;
          col_calls := S (col_calls c);
          col_thrown := Some message |}, true)
  end.

(** [for (let i = 0; i < sampleSize; i++) { ... }] *)
Definition rate_loop (fuel : nat) (env : environment) (image question : list Z)
    (sampleSize : float) (c : collecting) : option (collecting * nat) :=
  for_loop fuel (fun i => i <? sampleSize) (fun i => i + 1)
    (rate_body env image question) 0 c.

(** The double quote, for the messages that contain one. *)
Definition quote : string := String (Ascii.ascii_of_nat 34) EmptyString.

Section RunExperiment.

Variable M : MathLib.
Variable inherited : string -> bool.
Variable env : environment.

(** The [catch] and [finally] blocks. *)
Definition caught (message : string) (st : hook_state) : hook_state :=
  setIsRunning false (setError (Some message) st).

Definition runExperiment (fuel : nat) (st0 : hook_state)
    (image1Data image2Data question : list Z) (providerName : string)
    (providerConfig : config) (sampleSize : float) : option hook_state :=
  let st := setIsRunning true st0 in
  let st := setError None st in
  let st := setResults None st in
  let st := setProgress (fun _ => {| current := 0; total := sampleSize * 2 |}) st in
  match getProvider inherited providerName providerConfig with
  | Thrown message => Some (caught message st)
  | TypeError => Some (caught (env_type_error env providerName) st)
  | ReturnedConfig _ =>
      (* [provider.isAvailable] is [undefined]: the call raises a TypeError *)
      Some (caught (env_type_error env providerName) st)
  | Returned provider =>
      if negb (env_available env) then
        Some (caught ("Provider " ++ quote ++ providerName ++ quote
                      ++ " is not available. Make sure the service is running.")
                     st)
      else
        r1 <- rate_loop fuel env image1Data question sampleSize
                {| col_ratings := []; col_state := st; col_calls := 0;
                   col_thrown := None |} ;;
        let c1 := fst r1 in
        match col_thrown c1 with
        | Some message => Some (caught message (col_state c1))
        | None =>
            r2 <- rate_loop fuel env image2Data question sampleSize
                    {| col_ratings := []; col_state := col_state c1;
                       col_calls := col_calls c1; col_thrown := None |} ;;
            let c2 := fst r2 in
            match col_thrown c2 with
            | Some message => Some (caught message (col_state c2))
            | None =>
                let ratings1 := col_ratings c1 in
                let ratings2 := col_ratings c2 in
                stats <- independentTTest M fuel ratings1 ratings2 ;;
                let st := col_state c2 in
                let st :=
                  setResults
                    (Some
                       {| res_image1 :=
                            {| iv_ratings := ratings1;
                               iv_mean := mean1 stats;
                               iv_std := std1 stats |};
                          res_image2 :=
                            {| iv_ratings := ratings2;
                               iv_mean := mean2 stats;
                               iv_std := std2 stats |};
                          res_statistics :=
                            {| sv_tStatistic := tStatistic stats;
                               sv_degreesOfFreedom := degreesOfFreedom stats;
                               sv_pValue := pValue stats;
                               sv_isSignificant := isSignificant stats;
                               sv_effectSize := effectSize stats |};
                          res_provider := getInfo provider |})
                    st in
                Some (setIsRunning false st)
            end
        end
  end.


End RunExperiment.

End Hook.

(** * The exactly specified part of [Math] *)

(** An integer of magnitude at most [2^53] as a number. *)
Definition num_of_Z (z : Z) : float :=
  match z with
  | Z0 => 0
  | Zpos _ => of_uint63 (Uint63.of_Z z)
  | Zneg p => - of_uint63 (Uint63.of_Z (Zpos p))
  end.

(** [Math.max(a, b)]: NaN when an argument is NaN; [+0] counts as larger
    than [-0]. *)
Definition Math_max (a b : float) : float :=
  if is_nan a || is_nan b then nan
  else if a <? b then b
  else if b <? a then a
  else if get_sign a then b else a.

(** [Math.min(a, b)]: NaN when an argument is NaN; [-0] counts as smaller
    than [+0]. *)
Definition Math_min (a b : float) : float :=
  if is_nan a || is_nan b then nan
  else if a <? b then a
  else if b <? a then b
  else if get_sign a then a else b.

(** [Math.round(x)]: the integer nearest to [x], a tie going up; NaN,
    infinities, zeros and integers are returned as they are, and what
    rounds to zero keeps the sign of [x].  For [x = m * 2^e] with [e < 0]
    the integer is [floor (x + 1/2)], computed exactly. *)
Definition Math_round (x : float) : float :=
  match Prim2SF x with
  | S754_finite s m e =>
      if (0 <=? e)%Z then x
      else
        let z := ((2 * cond_Zopp s (Zpos m) + 2 ^ (- e)) / 2 ^ (1 - e))%Z in
        if (z =? 0)%Z then (if s then neg_zero else 0) else num_of_Z z
  | _ => x
  end.

Module MockRating.
Import Registry.

(** [this.delay.min + Math.random() * (this.delay.max - this.delay.min)] *)
Definition delayMs (delay : delay_range) (random : float) : float :=
  delay_min delay + random * (delay_max delay - delay_min delay).

(** [rateImage(imageBase64, question)] of the mock provider, given the two
    numbers that its calls of [Math.random()] return: the first sets the
    delay, the second the variation.  The question is not used. *)
Definition rateImage (delay : delay_range) (random1 random2 : float)
    (imageBase64 question : list Z) : float :=
  let _ := delayMs delay random1 in
  let baseRating := num_of_Z (Mock.baseRating imageBase64) in
  let variation := (random2 - 0.5) * 4 in
  Math_round (Math_min 10 (Math_max 1 (baseRating + variation))).

End MockRating.

(** * Runs of the hook, for its properties *)

Module HookSpec.
Import Registry Hook.

(** [m] increments of [progress.current]. *)
Definition bump (m : nat) (st : hook_state) : hook_state :=
  {| isRunning := isRunning st;
     progress :=
       {| current := Nat.iter m (fun x => x + 1) (current (progress st));
          total := total (progress st) |};
     results := results st;
     error := error st |}.

(** Up to [m] calls of [rateImage], stopping at the first that fails:
    the rating loop with its counter taken as a natural number. *)
Fixpoint collect (env : environment) (image question : list Z) (m : nat)
    (c : collecting) : collecting :=
  match m with
  | O => c
  | S m' =>
      match env_rate env image question (col_calls c) with
      | Rated rating =>
          collect env image question m'
            {| col_ratings := col_ratings c ++ [rating];
               col_state := bump 1 (col_state c);
               col_calls := S (col_calls c);
               col_thrown := None |}
      | Failed message =>
          {| col_ratings := col_ratings c;
             col_state := col_state c;
             col_calls := S (col_calls c);
             col_thrown := Some message |}
      end
  end.
(** The state after the four [set] calls that open [runExperiment]. *)
Definition started (sampleSize : float) : hook_state :=
  {| isRunning := true;
     progress := {| current := 0; total := sampleSize * 2 |};
     results := None;
     error := None |}.

(** The rating of call [j] on an image, 0 when the call fails. *)
Definition rating_of (env : environment) (question image : list Z) (j : nat)
    : float :=
  match env_rate env image question j with
  | Rated rating => rating
  | Failed _ => 0
  end.

(** The image that call [j] of a run with [n] ratings per image rates. *)
Definition image_of (image1 image2 : list Z) (n j : nat) : list Z :=
  if (j <? n)%nat then image1 else image2.

(** The state that a run publishes after [2n] ratings. *)
Definition published (M : MathLib) (provider : Registry.provider)
    (ratings1 ratings2 : list float) (stats : TestResult) (n : nat)
    : hook_state :=
  {| isRunning := false;
     progress := {| current := num_of_nat (2 * n); total := num_of_nat (2 * n) |};
     results :=
       Some
         {| res_image1 :=
              {| iv_ratings := ratings1; iv_mean := mean ratings1;
                 iv_std := standardDeviation M ratings1 |};
            res_image2 :=
              {| iv_ratings := ratings2; iv_mean := mean ratings2;
                 iv_std := standardDeviation M ratings2 |};
            res_statistics :=
              {| sv_tStatistic := tStatistic stats;
                 sv_degreesOfFreedom := degreesOfFreedom stats;
                 sv_pValue := pValue stats;
                 sv_isSignificant := isSignificant stats;
                 sv_effectSize := effectSize stats |};
            res_provider := getInfo provider |};
     error := None |}.

(** The world of the mock provider: it is always available, and call [j]
    of [rateImage] draws the numbers [2j] and [2j + 1] of the sequence of
    results of [Math.random()]. *)
Definition mock_env (delay : delay_range) (random : nat -> float)
    (type_error : string -> string) : environment :=
  {| env_available := true;
     env_rate image question j :=
       Rated (MockRating.rateImage delay (random (2 * j)%nat)
                (random (2 * j + 1)%nat) image question);
     env_type_error := type_error |}.

(** The ratings of [n] calls of the mock provider from call [first] on. *)
Definition mock_ratings (delay : delay_range) (random : nat -> float)
    (image question : list Z) (first n : nat) : list float :=
  map (fun j => MockRating.rateImage delay (random (2 * (first + j))%nat)
                  (random (2 * (first + j) + 1)%nat) image question)
      (seq 0 n).

(** ** Three providers for concrete runs *)

(** A provider that answers 4, 5 for the first image and 7, 8 for the
    second. *)
Definition steady_env : environment :=
  {| env_available := true;
     env_rate _ _ j := Rated (num_of_nat (4 + j + j / 2));
     env_type_error _ := "not a constructor"%string |}.

(** A provider whose fourth call fails. *)
Definition failing_env : environment :=
  {| env_available := true;
     env_rate _ _ j := if (j =? 3)%nat then Failed "timeout" else Rated 5;
     env_type_error _ := "not a constructor"%string |}.

(** A provider that is not running. *)
Definition absent_env : environment :=
  {| env_available := false;
     env_rate _ _ _ := Failed "unreachable";
     env_type_error _ := "not a constructor"%string |}.

End HookSpec.

(** * Facts about IEEE 754 binary64 arithmetic

    Proved on [spec_float], the bit-level specification of the primitive
    floats, and carried over to [float]. *)

Module IEEE.

Local Open Scope Z_scope.

(** ** Digits, shifts and rounding *)

(** The number of binary digits, in terms of [Z.log2]. *)
Lemma Zdigits2_log2 p : Zdigits2 (Zpos p) = Z.log2 (Zpos p) + 1.
Proof.
  unfold Zdigits2.
  induction p as [p IH|p IH|]; simpl digits2_pos.
  - rewrite Pos2Z.inj_succ, IH.
    change (Z.pos p~1) with (2 * Z.pos p + 1). rewrite Z.log2_succ_double by lia. lia.
  - rewrite Pos2Z.inj_succ, IH.
    change (Z.pos p~0) with (2 * Z.pos p). rewrite Z.log2_double by lia. lia.
  - reflexivity.
Qed.

Lemma Zdigits2_bounds p : 2 ^ (Zdigits2 (Zpos p) - 1) <= Zpos p < 2 ^ Zdigits2 (Zpos p).
Proof.
  rewrite Zdigits2_log2.
  replace (Z.log2 (Z.pos p) + 1 - 1) with (Z.log2 (Z.pos p)) by lia.
  replace (Z.log2 (Z.pos p) + 1) with (Z.succ (Z.log2 (Z.pos p))) by lia.
  apply Z.log2_spec. lia.
Qed.

Lemma Zdigits2_unique m d : 0 < m -> 2 ^ (d - 1) <= m < 2 ^ d -> Zdigits2 m = d.
Proof.
  intros Hm H. destruct m as [|p|p]; try lia.
  rewrite Zdigits2_log2.
  assert (0 < d).
  { destruct (Z.ltb_spec 0 d); auto.
    rewrite (Z.pow_neg_r 2 (d-1)) in H by lia.
    assert (2 ^ d <= 1); [|lia].
    destruct (Z.eq_dec d 0); [subst; simpl; lia|].
    rewrite Z.pow_neg_r by lia. lia. }
  assert (Z.log2 (Z.pos p) = d - 1); [|lia].
  apply Z.log2_unique; [lia|]. replace (Z.succ (d-1)) with d by lia. auto.
Qed.

Lemma shr_1_m mrs : 0 <= shr_m mrs -> shr_m (shr_1 mrs) = shr_m mrs / 2.
Proof.
  destruct mrs as [m r s]. simpl. intros H.
  destruct m as [|[p|p|]|p]; try lia; simpl shr_m.
  - reflexivity.
  - change (Z.pos p~1) with (2 * Z.pos p + 1). symmetry.
    rewrite Z.add_comm, Z.mul_comm, Z.div_add by lia. reflexivity.
  - change (Z.pos p~0) with (2 * Z.pos p). symmetry.
    rewrite Z.mul_comm, Z.div_mul by lia. reflexivity.
  - reflexivity.
Qed.

(** [n] right shifts divide the mantissa by [2 ^ n]. *)
Lemma iter_shr_1_m n : forall mrs, 0 <= shr_m mrs ->
  shr_m (SpecFloat.iter_pos shr_1 n mrs) = shr_m mrs / 2 ^ Zpos n.
Proof.
  induction n as [n IH|n IH|]; intros mrs H; simpl SpecFloat.iter_pos.
  - assert (H1 : 0 <= shr_m (shr_1 mrs))
      by (rewrite shr_1_m by auto; apply Z.div_pos; lia).
    assert (H2 : 0 <= shr_m (SpecFloat.iter_pos shr_1 n (shr_1 mrs)))
      by (rewrite IH by auto; apply Z.div_pos; lia).
    rewrite IH, IH, shr_1_m by auto.
    rewrite !Z.div_div by lia. f_equal.
    rewrite Pos2Z.inj_xI. rewrite <- !Z.pow_add_r, <- Z.pow_succ_r by lia. f_equal. lia.
  - assert (H2 : 0 <= shr_m (SpecFloat.iter_pos shr_1 n mrs))
      by (rewrite IH by auto; apply Z.div_pos; lia).
    rewrite IH, IH by auto.
    rewrite !Z.div_div by lia. f_equal.
    rewrite Pos2Z.inj_xO. rewrite <- !Z.pow_add_r by lia. f_equal. lia.
  - rewrite shr_1_m by auto. reflexivity.
Qed.

(** Shifting a mantissa of at least 53 digits down to 53 digits. *)
Lemma shr_fexp_normal m e l :
  0 < m -> 53 <= Zdigits2 m -> -1074 <= Zdigits2 m + e - 53 ->
  exists mrs, shr_fexp prec emax m e l = (mrs, Zdigits2 m + e - 53)
    /\ 2 ^ 52 <= shr_m mrs < 2 ^ 53.
Proof.
  intros Hm HD He.
  unfold shr_fexp, fexp, SpecFloat.emin, prec, emax.
  replace (Z.max (Zdigits2 m + e - 53) (3 - 1024 - 53))
    with (Zdigits2 m + e - 53) by lia.
  destruct m as [|p|p]; try lia.
  pose proof (Zdigits2_bounds p) as HB.
  remember (Zdigits2 (Z.pos p)) as D.
  destruct (Z.eq_dec D 53) as [->|Hne].
  - replace (53 + e - 53 - e) with 0 by lia. simpl shr.
    eexists; split; [f_equal; lia|]. destruct l as [|[]]; simpl; lia.
  - assert (Hn : 0 < D + e - 53 - e) by lia.
    destruct (D + e - 53 - e) as [|n|n] eqn:En; try lia.
    simpl shr. eexists; split; [f_equal; lia|].
    rewrite iter_shr_1_m by (destruct l as [|[]]; simpl; lia).
    replace (shr_m (shr_record_of_loc (Z.pos p) l)) with (Z.pos p)
      by (destruct l as [|[]]; reflexivity).
    assert (Z.pos n = D - 53) by lia. rewrite H.
    split.
    + apply Z.div_le_lower_bound; [apply Z.pow_pos_nonneg; lia|].
      rewrite <- Z.pow_add_r by lia. replace (D - 53 + 52) with (D - 1) by lia. lia.
    + apply Z.div_lt_upper_bound; [apply Z.pow_pos_nonneg; lia|].
      rewrite <- Z.pow_add_r by lia. replace (D - 53 + 53) with D by lia. lia.
Qed.

(** A positive number with a 53-digit mantissa and an exponent of at least
    [-53] is not below one half. *)
Lemma not_lt_half m e :
  2 ^ 52 <= Zpos m -> -53 <= e -> SFltb (S754_finite false m e) half_sf = false.
Proof.
  intros Hm He. unfold SFltb, SFcompare, half_sf.
  destruct (Z.compare_spec e (-53)); try lia; auto.
  rewrite Pos.compare_cont_spec. simpl.
  destruct (Pos.compare_spec m 4503599627370496) as [Hc|Hc|Hc]; auto.
  exfalso. change (2^52) with 4503599627370496 in Hm.
  apply Pos2Z.pos_lt_pos in Hc. apply (Z.lt_irrefl (Z.pos m)).
  eapply Z.lt_le_trans; eassumption.
Qed.

Lemma round_nearest_even_ge m l : m <= round_nearest_even m l <= m + 1.
Proof. destruct l as [|[]]; simpl; try lia. destruct (Z.even m); lia. Qed.

(** Rounding keeps a positive value of at least one half at or above one
    half. *)
Lemma binary_round_aux_ge_half m e l :
  0 < m -> 53 <= Zdigits2 m -> 0 <= Zdigits2 m + e ->
  SFltb (binary_round_aux prec emax false m e l) half_sf = false.
Proof.
  intros Hm HD He. unfold binary_round_aux.
  destruct (shr_fexp_normal m e l) as (mrs & -> & Hmrs); try lia.
  set (m2 := round_nearest_even (shr_m mrs) (loc_of_shr_record mrs)).
  pose proof (round_nearest_even_ge (shr_m mrs) (loc_of_shr_record mrs)) as Hr.
  fold m2 in Hr.
  assert (Hm2 : 2 ^ 52 <= m2 <= 2 ^ 53) by lia.
  assert (HD2 : 53 <= Zdigits2 m2).
  { destruct m2 as [|p|p]; try lia. rewrite Zdigits2_log2.
    assert (52 <= Z.log2 (Z.pos p)); [|lia]. apply Z.log2_le_pow2; lia. }
  destruct (shr_fexp_normal m2 (Zdigits2 m + e - 53) loc_Exact)
    as (mrs2 & -> & Hmrs2); try lia.
  destruct (shr_m mrs2) as [|q|q] eqn:Eq; try lia.
  destruct (Z.leb _ _); [|reflexivity].
  apply not_lt_half; lia.
Qed.

Lemma pos_iter_xO p k : Z.pos (Pos.iter xO p k) = Z.pos p * 2 ^ Z.pos k.
Proof.
  induction k as [|k IH] using Pos.peano_ind.
  - simpl. lia.
  - rewrite Pos.iter_succ, Pos2Z.inj_xO, IH, Pos2Z.inj_succ, Z.pow_succ_r by lia. lia.
Qed.

Lemma shl_align_value m e ez :
  ez <= e -> Z.pos (fst (shl_align m e ez)) = Z.pos m * 2 ^ (e - ez).
Proof.
  intros H. unfold shl_align.
  destruct (ez - e) as [|k|k] eqn:E; try lia; simpl fst.
  - replace (e - ez) with 0 by lia. lia.
  - rewrite pos_iter_xO. f_equal. f_equal. lia.
Qed.

Lemma digits_lower q n : 0 <= n -> 2 ^ n <= Z.pos q -> n < Zdigits2 (Z.pos q).
Proof.
  intros Hn H. pose proof (Zdigits2_bounds q) as [_ HB].
  apply (Z.pow_lt_mono_r_iff 2); try lia.
  rewrite Zdigits2_log2. pose proof (Z.log2_nonneg (Z.pos q)). lia.
Qed.

Lemma binary_round_ge_half p e :
  0 <= Zdigits2 (Z.pos p) + e ->
  SFltb (binary_round prec emax false p e) half_sf = false.
Proof.
  intros H. unfold binary_round.
  change (Z.pos (digits2_pos p)) with (Zdigits2 (Z.pos p)).
  set (D := Zdigits2 (Z.pos p)) in *.
  assert (HD : 0 < D).
  { unfold D. rewrite Zdigits2_log2. pose proof (Z.log2_nonneg (Z.pos p)). lia. }
  unfold fexp, SpecFloat.emin, prec, emax.
  replace (Z.max (D + e - 53) (3 - 1024 - 53)) with (D + e - 53) by lia.
  unfold shl_align.
  destruct (D + e - 53 - e) as [|k|k] eqn:E.
  - apply binary_round_aux_ge_half; fold D; lia.
  - apply binary_round_aux_ge_half; fold D; lia.
  - assert (Hd : Zdigits2 (Z.pos (Pos.iter xO p k)) = D + Z.pos k).
    { apply Zdigits2_unique; [lia|]. rewrite pos_iter_xO.
      pose proof (Zdigits2_bounds p) as [B1 B2]. fold D in B1, B2.
      replace (D + Z.pos k - 1) with ((D - 1) + Z.pos k) by lia.
      rewrite !Z.pow_add_r by lia.
      assert (0 < 2 ^ Z.pos k) by (apply Z.pow_pos_nonneg; lia).
      split; [apply Z.mul_le_mono_nonneg_r; lia | apply Z.mul_lt_mono_pos_r; lia]. }
    apply binary_round_aux_ge_half; rewrite ?Hd; lia.
Qed.

Lemma valid_mantissa_bound s m e :
  valid_binary (S754_finite s m e) = true -> Z.pos m < 2 ^ 53.
Proof.
  unfold FloatAxioms.valid_binary, SpecFloat.valid_binary, bounded, canonical_mantissa.
  intros H. apply andb_prop in H as [H _]. apply Z.eqb_eq in H.
  change (Z.pos (digits2_pos m)) with (Zdigits2 (Z.pos m)) in H.
  unfold fexp, SpecFloat.emin, prec, emax in H.
  pose proof (Zdigits2_bounds m) as [_ B].
  eapply Z.lt_le_trans; [exact B|]. apply Z.pow_le_mono_r; lia.
Qed.

(** [1 - s] for a valid [s] below one half: the exact difference is at
    least one half, and so is its rounding. *)
Lemma SFsub_one_ge_half s :
  valid_binary s = true -> SFltb s half_sf = true ->
  SFltb (SF64sub one_sf s) half_sf = false.
Proof.
  intros Hv Hlt. destruct s as [sz|[]| |sy my ey]; try discriminate; try reflexivity.
  unfold SF64sub, SFsub, one_sf.
  set (ez := Z.min (-52) ey).
  assert (Hez1 : ez <= -52) by (unfold ez; lia).
  assert (Hez2 : ez <= ey) by (unfold ez; lia).
  rewrite !shl_align_value by lia.
  assert (HA : Z.pos 4503599627370496 * 2 ^ (-52 - ez) = 2 ^ (- ez)).
  { change (Z.pos 4503599627370496) with (2 ^ 52).
    rewrite <- Z.pow_add_r by lia. f_equal. lia. }
  rewrite HA. clear HA.
  assert (HB0 : 0 < Z.pos my * 2 ^ (ey - ez)).
  { apply Z.mul_pos_pos; [lia|apply Z.pow_pos_nonneg; lia]. }
  assert (Hgoal : forall q, 2 ^ (- ez - 1) <= Z.pos q ->
            SFltb (binary_round prec emax false q ez) half_sf = false).
  { intros q Hq. apply binary_round_ge_half.
    pose proof (digits_lower q (- ez - 1)). lia. }
  assert (Hpow : 2 ^ (- ez) = 2 * 2 ^ (- ez - 1)).
  { rewrite <- Z.pow_succ_r by lia. f_equal. lia. }
  assert (Hpos : 0 < 2 ^ (- ez - 1)) by (apply Z.pow_pos_nonneg; lia).
  destruct sy; unfold cond_Zopp.
  - destruct (2 ^ (- ez) - - (Z.pos my * 2 ^ (ey - ez))) as [|q|q] eqn:E; try lia.
    apply Hgoal. lia.
  - assert (Hm : Z.pos my < 2 ^ 53) by (eapply valid_mantissa_bound; eauto).
    assert (Hey : ey <= -53 /\ Z.pos my < 2 ^ (- ey - 1)).
    { revert Hlt. unfold SFltb, SFcompare, half_sf.
      destruct (Z.compare_spec ey (-53)) as [Hc|Hc|Hc]; try discriminate.
      - intros Hl. subst ey. split; [lia|].
        destruct (Pos.compare_cont Eq my 4503599627370496) eqn:Ec; try discriminate.
        rewrite Pos.compare_cont_spec in Ec.
        destruct (Pos.compare_spec my 4503599627370496) as [Hc'|Hc'|Hc'];
          simpl in Ec; try discriminate Ec.
        apply Pos2Z.pos_lt_pos in Hc'. exact Hc'.
      - intros _. split; [lia|]. eapply Z.lt_le_trans; [exact Hm|].
        apply Z.pow_le_mono_r; lia. }
    destruct Hey as [Hey Hmy].
    assert (ez = ey) by (unfold ez; lia). 
    replace (ey - ez) with 0 by lia. rewrite Z.mul_1_r.
    rewrite H in *.
    destruct (2 ^ (- ey) - Z.pos my) as [|q|q] eqn:E; try lia.
    apply Hgoal. lia.
Qed.

(** ** Signs *)

Lemma binary_round_aux_opp s m e l :
  binary_round_aux prec emax (negb s) m e l
  = SFopp (binary_round_aux prec emax s m e l).
Proof.
  unfold binary_round_aux.
  destruct (shr_fexp prec emax m e l) as [mrs e'].
  destruct (shr_fexp prec emax _ e' loc_Exact) as [mrs' e''].
  destruct (shr_m mrs'); try reflexivity.
  destruct (e'' <=? emax - prec); reflexivity.
Qed.

Lemma binary_round_opp s m e :
  binary_round prec emax (negb s) m e = SFopp (binary_round prec emax s m e).
Proof.
  unfold binary_round. destruct (shl_align m e _) as [mz ez].
  apply binary_round_aux_opp.
Qed.

Lemma sf_eqz_refl x : sf_eqz x x.
Proof. left; reflexivity. Qed.

Lemma sf_eqz_zeros s s' : sf_eqz (S754_zero s) (S754_zero s').
Proof. right; eauto. Qed.

#[local] Hint Resolve sf_eqz_refl sf_eqz_zeros : core.

(** [x - y] and [-(y - x)] differ at most in the sign of a zero. *)
Lemma SFsub_swap x y : sf_eqz (SF64sub x y) (SFopp (SF64sub y x)).
Proof.
  destruct x as [sx|sx| |sx mx ex], y as [sy|sy| |sy my ey];
    try (destruct sx, sy; simpl; auto; fail);
    try (destruct sx; simpl; auto; fail);
    try (destruct sy; simpl; auto; fail);
    try (simpl; auto; fail).
  unfold SF64sub, SFsub. rewrite (Z.min_comm ey ex).
  set (ez := Z.min ex ey).
  set (u := cond_Zopp sx (Z.pos (fst (shl_align mx ex ez)))).
  set (v := cond_Zopp sy (Z.pos (fst (shl_align my ey ez)))).
  replace (v - u) with (- (u - v)) by lia.
  destruct (u - v) as [|q|q]; simpl; auto.
  - left. apply (binary_round_opp true).
  - left. apply (binary_round_opp false).
Qed.

Lemma SFdiv_opp_l x y : SF64div (SFopp x) y = SFopp (SF64div x y).
Proof.
  destruct x as [sx|sx| |sx mx ex], y as [sy|sy| |sy my ey]; simpl;
    try reflexivity; try (destruct sx, sy; reflexivity).
  destruct (SFdiv_core_binary prec emax (Z.pos mx) ex (Z.pos my) ey) as [[mz ez] lz].
  rewrite <- binary_round_aux_opp. f_equal. destruct sx, sy; reflexivity.
Qed.

Lemma SFdiv_eqz x x' y : sf_eqz x x' -> sf_eqz (SF64div x y) (SF64div x' y).
Proof.
  intros [->|(s & s' & -> & ->)]; auto.
  destruct y as [sy|sy| |sy my ey]; simpl; auto.
Qed.

Lemma SFabs_eqz x y : sf_eqz x y -> SFabs x = SFabs y.
Proof. intros [->|(s & s' & -> & ->)]; reflexivity. Qed.

Lemma SFabs_opp x : SFabs (SFopp x) = SFabs x.
Proof. destruct x; reflexivity. Qed.

Lemma SFcompare_refl x : x <> S754_nan -> SFcompare x x = Some Eq.
Proof.
  destruct x as [s|[]| |[] m e]; intros H; try reflexivity; try congruence;
    simpl; rewrite Z.compare_refl, Pos.compare_cont_spec, Pos.compare_refl;
    reflexivity.
Qed.

Lemma sf_eqz_eqb x y :
  sf_eqz x y -> (x = S754_nan /\ y = S754_nan) \/ SFeqb x y = true.
Proof.
  intros [->|(s & s' & -> & ->)]; [|right; reflexivity].
  destruct y as [s|s| |s m e]; auto; right; unfold SFeqb;
    rewrite SFcompare_refl; congruence.
Qed.

Lemma SFopp_nan x : SFopp x = S754_nan -> x = S754_nan.
Proof. destruct x; simpl; congruence. Qed.

Lemma SFadd_comm x y : SF64add x y = SF64add y x.
Proof.
  destruct x as [[]|[]| |sx mx ex], y as [[]|[]| |sy my ey]; try reflexivity.
  unfold SF64add, SFadd. rewrite Z.min_comm, Z.add_comm. reflexivity.
Qed.

End IEEE.

(** ** The same facts on primitive floats *)

Lemma Prim2SF_nan : Prim2SF nan = S754_nan.
Proof. reflexivity. Qed.

Lemma add_comm x y : x + y = y + x.
Proof. apply Prim2SF_inj. rewrite !add_spec. apply IEEE.SFadd_comm. Qed.

Lemma add_nan_l x : nan + x = nan.
Proof.
  apply Prim2SF_inj. rewrite add_spec, Prim2SF_nan. reflexivity.
Qed.

Lemma add_nan_r x : x + nan = nan.
Proof. rewrite add_comm. apply add_nan_l. Qed.

Lemma sub_nan_r x : x - nan = nan.
Proof.
  apply Prim2SF_inj. rewrite sub_spec, Prim2SF_nan.
  destruct (Prim2SF x); reflexivity.
Qed.

Lemma mul_nan_r x : x * nan = nan.
Proof.
  apply Prim2SF_inj. rewrite mul_spec, Prim2SF_nan.
  destruct (Prim2SF x); reflexivity.
Qed.

Lemma div_nan_r x : x / nan = nan.
Proof.
  apply Prim2SF_inj. rewrite div_spec, Prim2SF_nan.
  destruct (Prim2SF x); reflexivity.
Qed.

Lemma div_nan_l x : nan / x = nan.
Proof.
  apply Prim2SF_inj. rewrite div_spec, Prim2SF_nan. reflexivity.
Qed.

Lemma ltb_nan_l x : (nan <? x) = false.
Proof. rewrite FloatAxioms.ltb_spec, Prim2SF_nan. reflexivity. Qed.

(** Subtracting a number below one half from 1 never gives a number
    below one half. *)
Lemma sub_one_not_below_half z : (z <? 0.5) = true -> (1 - z <? 0.5) = false.
Proof.
  intros H. rewrite FloatAxioms.ltb_spec in H. rewrite FloatAxioms.ltb_spec, sub_spec.
  apply (IEEE.SFsub_one_ge_half (Prim2SF z)); [apply Prim2SF_valid | exact H].
Qed.

(** The two t-statistics of a swapped pair: same magnitude, opposite sign,
    NaN together. *)
Lemma quotient_of_swapped_difference a b s :
  (((a - b) / s = nan /\ (b - a) / s = nan)
   \/ ((a - b) / s =? - ((b - a) / s)) = true)
  /\ abs ((a - b) / s) = abs ((b - a) / s).
Proof.
  assert (E : sf_eqz (Prim2SF ((a - b) / s)) (Prim2SF (- ((b - a) / s)))).
  { rewrite opp_spec, !div_spec, !sub_spec, <- IEEE.SFdiv_opp_l.
    apply IEEE.SFdiv_eqz, IEEE.SFsub_swap. }
  split.
  - destruct (IEEE.sf_eqz_eqb _ _ E) as [[H1 H2]|H].
    + left. split; apply Prim2SF_inj; rewrite Prim2SF_nan; [exact H1|].
      rewrite opp_spec in H2. apply IEEE.SFopp_nan. exact H2.
    + right. rewrite FloatAxioms.eqb_spec. exact H.
  - apply Prim2SF_inj. rewrite !abs_spec.
    rewrite (IEEE.SFabs_eqz _ _ E), opp_spec. apply IEEE.SFabs_opp.
Qed.

(** * Loops and recursion *)

Section ForLoop.

Context {St : Type}.
Variable cond : float -> bool.
Variable incr : float -> float.
Variable body : float -> St -> St * bool.

Lemma for_trace_fst k : forall i s,
  fst (for_trace incr body k i s) = Nat.iter k incr i.
Proof.
  induction k as [|k IH]; intros i s; [reflexivity|].
  simpl for_trace. rewrite IH. symmetry. apply Nat.iter_succ_r.
Qed.


Lemma for_broke_eq k i s :
  for_broke incr body k i s
  = snd (body (fst (for_trace incr body k i s)) (snd (for_trace incr body k i s))).
Proof. unfold for_broke. destruct (for_trace incr body k i s); reflexivity. Qed.

(** More fuel does not change a result. *)
Lemma for_loop_fuel fuel : forall k i s r,
  for_loop fuel cond incr body i s = Some r ->
  for_loop (k + fuel) cond incr body i s = Some r.
Proof.
  induction fuel as [|fuel IH]; intros k i s r H; [discriminate|].
  rewrite Nat.add_succ_r. simpl in *.
  destruct (cond i); [|exact H].
  destruct (body i s) as [s' broke]. destruct broke; [exact H|].
  destruct (for_loop fuel cond incr body (incr i) s') as [[s'' n]|] eqn:E;
    [|discriminate].
  rewrite (IH k _ _ _ E). exact H.
Qed.

(** A loop whose condition fails after [N] increments runs at most [N]
    bodies: it stops at the first body that breaks, or after [N] bodies. *)
Lemma for_loop_unroll N : forall fuel i s,
  (N < fuel)%nat ->
  (forall k, (k < N)%nat -> cond (Nat.iter k incr i) = true) ->
  cond (Nat.iter N incr i) = false ->
  exists n, (n <= N)%nat
    /\ for_loop fuel cond incr body i s = Some (snd (for_trace incr body n i s), n)
    /\ (forall k, (S k < n)%nat -> for_broke incr body k i s = false)
    /\ ((n < N)%nat -> exists k, n = S k /\ for_broke incr body k i s = true)
    /\ ((0 < N)%nat -> (0 < n)%nat).
Proof.
  induction N as [|N IH]; intros fuel i s Hfuel Htrue Hfalse;
    (destruct fuel as [|fuel]; [lia|]).
  - exists 0%nat. simpl in *. rewrite Hfalse.
    split; [lia|]. split; [reflexivity|]. split; [intros; lia|].
    split; intros; lia.
  - assert (Hc : cond i = true) by (apply (Htrue 0%nat); lia).
    simpl for_loop. rewrite Hc.
    destruct (body i s) as [s' broke] eqn:Eb. destruct broke.
    + exists 1%nat. simpl. rewrite Eb.
      split; [lia|]. split; [reflexivity|]. split; [intros; lia|].
      split; [|lia].
      intros _. exists 0%nat. split; [reflexivity|].
      unfold for_broke. simpl. rewrite Eb. reflexivity.
    + destruct (IH fuel (incr i) s') as (n & Hn & Hrun & Hno & Hyes & _).
      * lia.
      * intros k Hk. rewrite <- Nat.iter_succ_r. apply Htrue. lia.
      * rewrite <- Nat.iter_succ_r. exact Hfalse.
      * exists (S n). rewrite Hrun. simpl for_trace. rewrite Eb. simpl fst.
        split; [lia|]. split; [reflexivity|]. split; [|split; [|lia]].
        -- intros [|k] Hk.
           ++ unfold for_broke. simpl. rewrite Eb. reflexivity.
           ++ unfold for_broke. simpl for_trace. rewrite Eb.
              apply Hno. lia.
        -- intros Hlt. destruct Hyes as (k & -> & Hk); [lia|].
           exists (S k). split; [reflexivity|].
           unfold for_broke. simpl for_trace. rewrite Eb. exact Hk.
Qed.

End ForLoop.

(** The loop variable of [betaCF] stays within [1..100] for 100 bodies and
    then fails the test [i <= maxIterations]. *)
Lemma cf_index_values :
  forallb (fun k => cf_index k <=? maxIterations) (seq 0 100) = true
  /\ (cf_index 100 <=? maxIterations) = false.
Proof. split; vm_compute; reflexivity. Qed.

Lemma cf_index_in_range k : (k < 100)%nat -> (cf_index k <=? maxIterations) = true.
Proof.
  intros H. destruct cf_index_values as [Hall _].
  rewrite forallb_forall in Hall. apply Hall. apply in_seq. lia.
Qed.





Lemma betaCF_run_spec fuel x a b :
  exists n, (1 <= n <= 100)%nat
    /\ betaCF_run (101 + fuel) x a b = Some (cf_after x a b n, n)
    /\ (forall k, (S k < n)%nat ->
          (Math_abs (cf_del x a b k - 1) <? epsilon) = false)
    /\ ((n < 100)%nat ->
          (Math_abs (cf_del x a b (n - 1) - 1) <? epsilon) = true).
Proof.
  destruct (for_loop_unroll (fun i => i <=? maxIterations) (fun i => i + 1)
              (betaCF_body x a b) 100 (101 + fuel) 1 (betaCF_init x a b))
    as (n & Hn & Hrun & Hno & Hyes & Hpos).
  - lia.
  - intros k Hk. apply (cf_index_in_range k Hk).
  - apply cf_index_values.
  - assert (Hdel : forall k,
      for_broke (fun i => i + 1) (betaCF_body x a b) k 1 (betaCF_init x a b)
      = (Math_abs (cf_del x a b k - 1) <? epsilon)).
    { intros k. rewrite for_broke_eq, for_trace_fst. reflexivity. }
    exists n. split; [lia|]. split; [exact Hrun|]. split.
    + intros k Hk. rewrite <- Hdel. apply Hno, Hk.
    + intros Hlt. destruct (Hyes Hlt) as (k & -> & Hk).
      rewrite <- Hdel. simpl. rewrite Nat.sub_0_r. exact Hk.
Qed.

Lemma betaCF_total fuel x a b : exists h, betaCF (101 + fuel) x a b = Some h.
Proof.
  destruct (betaCF_run_spec fuel x a b) as (n & _ & Hrun & _).
  unfold betaCF. rewrite Hrun. eexists. reflexivity.
Qed.

Lemma betaCF_more_fuel fuel x a b h :
  betaCF 101 x a b = Some h -> betaCF (101 + fuel) x a b = Some h.
Proof.
  unfold betaCF, betaCF_run. intros H.
  destruct (for_loop 101 _ _ _ _ _) as [r|] eqn:E; [|discriminate].
  rewrite Nat.add_comm. rewrite (for_loop_fuel _ _ _ _ _ _ _ _ E). exact H.
Qed.

(** ** [gammaLn]: the recursion is at most one call deep *)

Lemma gammaLn_unfold M fuel z :
  gammaLn M (S (S fuel)) z
  = Some (if z <? 0.5
          then Math_log M (Math_PI / Math_sin M (Math_PI * z))
               - gammaLn_series M (1 - z)
          else gammaLn_series M z).
Proof.
  simpl. destruct (z <? 0.5) eqn:E; [|reflexivity].
  rewrite (sub_one_not_below_half z E). reflexivity.
Qed.

Lemma gammaLn_total M fuel z : exists r, gammaLn M (101 + fuel) z = Some r.
Proof.
  change (101 + fuel)%nat with (S (S (99 + fuel))).
  rewrite gammaLn_unfold. eexists. reflexivity.
Qed.

(** ** Every function returns *)

Lemma incompleteBeta_total M fuel x a b :
  exists r, incompleteBeta M (101 + fuel) x a b = Some r.
Proof.
  unfold incompleteBeta.
  destruct (x =? 0); [eexists; reflexivity|].
  destruct (x =? 1); [eexists; reflexivity|].
  destruct (gammaLn_total M fuel (a + b)) as [gab ->].
  destruct (gammaLn_total M fuel a) as [ga ->].
  destruct (gammaLn_total M fuel b) as [gb ->].
  cbn [bind].
  destruct (x <? (a + 1) / (a + b + 2)).
  - destruct (betaCF_total fuel x a b) as [cf ->]. eexists; reflexivity.
  - destruct (betaCF_total fuel (1 - x) b a) as [cf ->]. eexists; reflexivity.
Qed.

Lemma tCDF_total M fuel t df : exists r, tCDF M (101 + fuel) t df = Some r.
Proof.
  unfold tCDF.
  destruct (incompleteBeta_total M fuel (df / (df + t * t)) (df / 2) 0.5) as [ib ->].
  eexists; reflexivity.
Qed.

Lemma independentTTest_total M fuel s1 s2 :
  exists r, independentTTest M (101 + fuel) s1 s2 = Some r.
Proof.
  unfold independentTTest. cbv zeta.
  match goal with
  | |- context [tCDF M (101 + fuel) ?t ?df] =>
      destruct (tCDF_total M fuel t df) as [cdf ->]
  end.
  eexists; reflexivity.
Qed.

(** ** NaN degrees of freedom *)

Lemma betaCF_nan : betaCF 101 nan 0.5 nan = Some nan.
Proof. vm_compute. reflexivity. Qed.

Lemma incompleteBeta_nan M fuel : incompleteBeta M (101 + fuel) nan nan 0.5 = Some nan.
Proof.
  unfold incompleteBeta.
  change (nan =? 0) with false. change (nan =? 1) with false. cbv iota.
  destruct (gammaLn_total M fuel (nan + 0.5)) as [gab ->].
  destruct (gammaLn_total M fuel nan) as [ga ->].
  destruct (gammaLn_total M fuel 0.5) as [gb ->].
  cbn [bind].
  change (nan <? (nan + 1) / (nan + 0.5 + 2)) with false. cbv iota.
  change (1 - nan) with nan.
  rewrite (betaCF_more_fuel fuel _ _ _ _ betaCF_nan). cbn [bind].
  rewrite mul_nan_r. reflexivity.
Qed.

Lemma tCDF_nan_df M fuel t : tCDF M (101 + fuel) t nan = Some nan.
Proof.
  unfold tCDF. rewrite add_nan_l.
  change (nan / nan) with nan. change (nan / 2) with nan.
  rewrite incompleteBeta_nan. reflexivity.
Qed.

Lemma welch_df_nan M v1 v2 n1 n2 num :
  pow_zero_exact M ->
  (v1 = 0 /\ n1 = 1) \/ (v2 = 0 /\ n2 = 1) ->
  num / (Math_pow M (v1 / n1) 2 / (n1 - 1) + Math_pow M (v2 / n2) 2 / (n2 - 1)) = nan.
Proof.
  unfold pow_zero_exact. intros Hp [[-> ->]|[-> ->]];
    change (0 / 1) with 0; rewrite Hp; change (0 / (1 - 1)) with nan;
    rewrite ?add_nan_l, ?add_nan_r; apply div_nan_r.
Qed.

Lemma singleton_variance M s :
  length s = 1%nat ->
  standardDeviation M s * standardDeviation M s = 0 /\ length_num s = 1.
Proof.
  intros H. unfold standardDeviation, length_num. rewrite H. split; reflexivity.
Qed.

Lemma fold_left_sum_from l : forall acc,
  fold_left (fun sum val => sum + val) l acc = sum_from acc l.
Proof. induction l as [|x l IH]; intros acc; [reflexivity|]. simpl. apply IH. Qed.

(** * The claims *)

(** ** Symmetry of the test under swapping the samples *)

(** C1, as amended: for every pair of samples A and B, both calls return;
    [independentTTest(A,B).tStatistic] and
    [-independentTTest(B,A).tStatistic] are equal as numbers ([==]) unless
    the t-statistic is NaN, in which case it is NaN in both results; the
    [pValue] fields are the same value (NaN included) and the
    [isSignificant] fields are the same boolean. *)
Theorem welch_symmetry M fuel (A B : list float) :
  exists r1 r2,
    independentTTest M (101 + fuel) A B = Some r1
    /\ independentTTest M (101 + fuel) B A = Some r2
    /\ ((tStatistic r1 = nan /\ tStatistic r2 = nan)
        \/ (tStatistic r1 =? - tStatistic r2) = true)
    /\ pValue r1 = pValue r2
    /\ isSignificant r1 = isSignificant r2.
Proof.
  unfold independentTTest. cbv zeta.
  set (vA := standardDeviation M A * standardDeviation M A / length_num A).
  set (vB := standardDeviation M B * standardDeviation M B / length_num B).
  rewrite (add_comm vB vA).
  rewrite (add_comm (Math_pow M vB 2 / (length_num B - 1))
                    (Math_pow M vA 2 / (length_num A - 1))).
  set (se := Math_sqrt (vA + vB)).
  set (df := Math_pow M (vA + vB) 2 / _).
  destruct (quotient_of_swapped_difference (mean A) (mean B) se) as [Ht Habs].
  unfold Math_abs. rewrite <- Habs.
  destruct (tCDF_total M fuel (abs ((mean A - mean B) / se)) df) as [cdf ->].
  cbn [bind]. do 2 eexists.
  split; [reflexivity|]. split; [reflexivity|].
  cbn [tStatistic pValue isSignificant]. auto.
Qed.

(** C1, the claim as stated fails: two constant samples with the same
    value have a zero standard error, so the t-statistic is [0/0 = NaN] in
    both orders, and NaN does not equal its negation.  ([Math.pow] is only
    called on [+0] here, where ECMA-262 fixes its result to [+0].) *)
Lemma welch_symmetry_nan_counterexample :
  independentTTest StubMath 101 [7; 7; 7] [7; 7]
  = Some {| mean1 := 7; mean2 := 7; std1 := 0; std2 := 0;
            tStatistic := nan; degreesOfFreedom := nan; pValue := nan;
            isSignificant := false; effectSize := nan |}
  /\ independentTTest StubMath 101 [7; 7] [7; 7; 7]
     = Some {| mean1 := 7; mean2 := 7; std1 := 0; std2 := 0;
               tStatistic := nan; degreesOfFreedom := nan; pValue := nan;
               isSignificant := false; effectSize := nan |}
  /\ (nan =? - nan) = false.
Proof. repeat split; vm_compute; reflexivity. Qed.

(** The NaN of that counterexample does not depend on the stand-in [Math]:
    it appears on every engine that meets ECMA-262 on [Math.pow(+0, 2)]. *)
Lemma constant_samples_any_engine M :
  pow_zero_exact M ->
  exists r1 r2,
    independentTTest M 101 [7; 7; 7] [7; 7] = Some r1
    /\ independentTTest M 101 [7; 7] [7; 7; 7] = Some r2
    /\ tStatistic r1 = nan /\ tStatistic r2 = nan.
Proof.
  unfold pow_zero_exact. intros Hpow.
  assert (H3 : standardDeviation M [7; 7; 7] = 0).
  { unfold standardDeviation. simpl map.
    change (7 - mean [7; 7; 7]) with 0. rewrite Hpow. reflexivity. }
  assert (H2 : standardDeviation M [7; 7] = 0).
  { unfold standardDeviation. simpl map.
    change (7 - mean [7; 7]) with 0. rewrite Hpow. reflexivity. }
  destruct (independentTTest_total M 0 [7; 7; 7] [7; 7]) as [r1 Hr1].
  destruct (independentTTest_total M 0 [7; 7] [7; 7; 7]) as [r2 Hr2].
  exists r1, r2. split; [exact Hr1|]. split; [exact Hr2|].
  revert Hr1 Hr2. unfold independentTTest. cbv zeta. rewrite H3, H2.
  destruct (tCDF M _ _ _); [|discriminate]. cbn [bind]. intros [= <-].
  destruct (tCDF M _ _ _); [|discriminate]. cbn [bind]. intros [= <-].
  split; reflexivity.
Qed.

(** ** The significance threshold *)

(** C2, as amended: [independentTTest] declares two parameters only; a
    third argument [alpha] is dropped, the call returns what the
    two-argument call returns, and [isSignificant] is [pValue < 0.05]. *)
Theorem significance_threshold_fixed M fuel (s1 s2 : list float) (alpha : float) :
  exists r,
    independentTTest_call3 M (101 + fuel) s1 s2 alpha = Some r
    /\ independentTTest M (101 + fuel) s1 s2 = Some r
    /\ isSignificant r = (pValue r <? 0.05).
Proof.
  unfold independentTTest_call3, independentTTest. cbv zeta.
  match goal with
  | |- context [tCDF M (101 + fuel) ?t ?df] =>
      destruct (tCDF_total M fuel t df) as [cdf ->]
  end.
  cbn [bind]. eexists. repeat split.
Qed.

(** The run behind the counterexample of C2 does not depend on the stand-in
    [Math]: any engine whose [Math.pow(v, 2)] is [v * v] gives the same
    record, since the p-value comes from the [x === 1] short-circuit. *)
Lemma equal_samples_any_engine M :
  (forall v, Math_pow M v 2 = v * v) ->
  independentTTest M 101 [1; 2; 3] [1; 2; 3]
  = Some {| mean1 := 2; mean2 := 2; std1 := 1; std2 := 1;
            tStatistic := 0; degreesOfFreedom := 4; pValue := 1;
            isSignificant := false; effectSize := 0 |}.
Proof.
  intros Hpow.
  assert (Hsd : standardDeviation M [1; 2; 3] = 1).
  { unfold standardDeviation. simpl map. rewrite !Hpow. reflexivity. }
  unfold independentTTest. cbv zeta. rewrite Hsd, !Hpow. reflexivity.
Qed.

(** C2, the claim as stated fails: called with [alpha = 2] on two equal
    samples, the p-value is 1, which is below [alpha], and [isSignificant]
    is still [false]. *)
Lemma significance_threshold_counterexample :
  independentTTest_call3 StubMath 101 [1; 2; 3] [1; 2; 3] 2
  = Some {| mean1 := 2; mean2 := 2; std1 := 1; std2 := 1;
            tStatistic := 0; degreesOfFreedom := 4; pValue := 1;
            isSignificant := false; effectSize := 0 |}
  /\ (1 <? 2) = true.
Proof. split; vm_compute; reflexivity. Qed.

(** ** The formulas of the driver *)

(** C4: for every pair of samples, with [var1] and [var2] the squared
    sample standard deviations, the result has
    [tStatistic = (mean1 - mean2) / sqrt(var1/n1 + var2/n2)],
    [degreesOfFreedom] by the Welch-Satterthwaite formula
    [(var1/n1 + var2/n2)^2 / ((var1/n1)^2/(n1-1) + (var2/n2)^2/(n2-1))]
    and [effectSize = (mean1 - mean2) / sqrt((var1 + var2)/2)]. *)
Theorem welch_formulas M fuel (s1 s2 : list float) :
  let n1 := length_num s1 in
  let n2 := length_num s2 in
  let var1 := standardDeviation M s1 * standardDeviation M s1 in
  let var2 := standardDeviation M s2 * standardDeviation M s2 in
  exists r,
    independentTTest M (101 + fuel) s1 s2 = Some r
    /\ mean1 r = mean s1 /\ mean2 r = mean s2
    /\ std1 r = standardDeviation M s1 /\ std2 r = standardDeviation M s2
    /\ tStatistic r = (mean s1 - mean s2) / Math_sqrt (var1 / n1 + var2 / n2)
    /\ degreesOfFreedom r
       = Math_pow M (var1 / n1 + var2 / n2) 2
         / (Math_pow M (var1 / n1) 2 / (n1 - 1)
            + Math_pow M (var2 / n2) 2 / (n2 - 1))
    /\ effectSize r = (mean s1 - mean s2) / Math_sqrt ((var1 + var2) / 2).
Proof.
  intros n1 n2 var1 var2.
  unfold independentTTest. cbv zeta. fold n1 n2 var1 var2.
  match goal with
  | |- context [tCDF M (101 + fuel) ?t ?df] =>
      destruct (tCDF_total M fuel t df) as [cdf ->]
  end.
  cbn [bind]. eexists. repeat split.
Qed.

(** ** Degenerate inputs *)

(** C5: for every input no function of the engine raises an error: [mean]
    and [standardDeviation] are total, and [independentTTest], [tCDF],
    [incompleteBeta], [betaCF] and [gammaLn] return a value once the budget
    covers the 100 loop bodies of [betaCF].  When either sample has length
    exactly 1 the degrees of freedom are NaN, [pValue] is NaN and
    [isSignificant] is [false]; the NaN comes from [Math.pow(0, 2) / 0],
    with [Math.pow(+0, 2) = +0] as ECMA-262 requires. *)
Theorem never_raises_singleton_nan M fuel (s1 s2 : list float) :
  (exists r,
     independentTTest M (101 + fuel) s1 s2 = Some r
     /\ (pow_zero_exact M ->
         length s1 = 1%nat \/ length s2 = 1%nat ->
         degreesOfFreedom r = nan /\ pValue r = nan /\ isSignificant r = false))
  /\ (forall t df, exists v, tCDF M (101 + fuel) t df = Some v)
  /\ (forall x a b, exists v, incompleteBeta M (101 + fuel) x a b = Some v)
  /\ (forall x a b, exists v, betaCF (101 + fuel) x a b = Some v)
  /\ (forall z, exists v, gammaLn M (101 + fuel) z = Some v).
Proof.
  split; [|split; [|split; [|split]]].
  - destruct (independentTTest_total M fuel s1 s2) as [r Hr].
    exists r. split; [exact Hr|]. intros Hpow Hlen.
    revert Hr. unfold independentTTest. cbv zeta.
    rewrite (welch_df_nan M _ _ _ _ _ Hpow).
    + rewrite tCDF_nan_df. cbn [bind]. intros [= <-]. repeat split.
    + destruct Hlen as [H|H]; [left|right]; apply singleton_variance, H.
  - intros t df. apply tCDF_total.
  - intros x a b. apply incompleteBeta_total.
  - intros x a b. apply betaCF_total.
  - intros z. apply gammaLn_total.
Qed.

(** C5 at a concrete input: a one-element first sample. *)
Lemma never_raises_singleton_nan_witness :
  exists r,
    independentTTest StubMath (101 + 0) [5] [1; 2; 3] = Some r
    /\ degreesOfFreedom r = nan /\ pValue r = nan /\ isSignificant r = false.
Proof.
  destruct (never_raises_singleton_nan StubMath 0 [5] [1; 2; 3])
    as ((r & Hr & H) & _).
  exists r. split; [exact Hr|]. apply H; [reflexivity|left; reflexivity].
Defined.

(** ** The continued fraction *)


(** Both ways out of the loop occur: an early stop after 5 bodies, and 100
    bodies without convergence (on NaN). *)
Example betaCF_run_counts :
  option_map snd (betaCF_run 101 0.3 2 0.5) = Some 5%nat
  /\ option_map snd (betaCF_run 101 nan 0.5 nan) = Some 100%nat.
Proof. split; vm_compute; reflexivity. Qed.

(** ** Descriptive statistics *)

(** C8: [mean] returns 0 for the empty sequence and otherwise the sum
    divided by the length; [standardDeviation] returns 0 for every
    sequence of length below 2 and otherwise the Bessel-corrected sample
    standard deviation [sqrt(sigma (x - mean)^2 / (n - 1))]. *)
Theorem descriptive_statistics M (arr : list float) :
  (length arr = 0%nat -> mean arr = 0)
  /\ ((0 < length arr)%nat -> mean arr = sigma arr / length_num arr)
  /\ ((length arr < 2)%nat -> standardDeviation M arr = 0)
  /\ ((2 <= length arr)%nat -> standardDeviation M arr = bessel_sd M arr).
Proof.
  unfold mean, standardDeviation, bessel_sd, sigma, reduce.
  rewrite !fold_left_sum_from.
  split; [|split; [|split]]; intros H.
  - rewrite H. reflexivity.
  - destruct (Nat.eqb_spec (length arr) 0); [lia|reflexivity].
  - destruct (Nat.ltb_spec (length arr) 2); [reflexivity|lia].
  - destruct (Nat.ltb_spec (length arr) 2); [lia|reflexivity].
Qed.

(** C8 at the sequences of the specification's examples. *)
Lemma descriptive_statistics_witness :
  mean [] = 0
  /\ mean [1; 2; 3] = sigma [1; 2; 3] / length_num [1; 2; 3]
  /\ standardDeviation StubMath [5] = 0
  /\ standardDeviation StubMath [1; 2; 3] = bessel_sd StubMath [1; 2; 3].
Proof.
  split; [exact (proj1 (descriptive_statistics StubMath []) eq_refl)|].
  split.
  { apply (proj1 (proj2 (descriptive_statistics StubMath [1; 2; 3]))).
    simpl; lia. }
  split.
  { apply (proj1 (proj2 (proj2 (descriptive_statistics StubMath [5])))).
    simpl; lia. }
  apply (proj2 (proj2 (proj2 (descriptive_statistics StubMath [1; 2; 3])))).
  simpl; lia.
Defined.

(** ** Boundaries of the incomplete beta function *)

(** C9: for every [a] and [b] (positive or not), [incompleteBeta(0, a, b)]
    is exactly 0 and [incompleteBeta(1, a, b)] is exactly 1.  The
    short-circuit comes before any call of [gammaLn] or [betaCF]: the
    results hold for every budget, the empty one included, under which such
    a call could not return. *)
Theorem incompleteBeta_boundary M fuel (a b : float) :
  incompleteBeta M fuel 0 a b = Some 0
  /\ incompleteBeta M fuel 1 a b = Some 1
  /\ gammaLn M 0 a = None
  /\ betaCF 0 0 a b = None.
Proof. repeat split. Qed.

(** ** Termination of [gammaLn] *)

(** C10, as amended: [gammaLn] returns on every input with a call stack
    two frames deep.  The reflection branch is taken only when [z < 0.5];
    it calls [gammaLn(1 - z)], and [1 - z] is never below 0.5, so that call
    takes the direct-series branch and returns without a further call. *)
Theorem gammaLn_depth_one M fuel (z : float) :
  gammaLn M (S (S fuel)) z
  = Some (if z <? 0.5
          then Math_log M (Math_PI / Math_sin M (Math_PI * z))
               - gammaLn_series M (1 - z)
          else gammaLn_series M z)
  /\ ((z <? 0.5) = true ->
        (1 - z <? 0.5) = false
        /\ gammaLn M 1 (1 - z) = Some (gammaLn_series M (1 - z)))
  /\ ((z <? 0.5) = false -> gammaLn M 1 z = Some (gammaLn_series M z)).
Proof.
  split; [apply gammaLn_unfold|]. split.
  - intros H. pose proof (sub_one_not_below_half z H) as H'.
    split; [exact H'|]. simpl. rewrite H'. reflexivity.
  - intros H. simpl. rewrite H. reflexivity.
Qed.

(** C10, the claim as stated fails in one detail: for the largest number
    below one half, [1 - z] is rounded to exactly 0.5, which is not above
    0.5. *)
Lemma gammaLn_reflection_counterexample :
  (0.49999999999999994 <? 0.5) = true
  /\ 1 - 0.49999999999999994 = 0.5
  /\ (0.5 <? 1 - 0.49999999999999994) = false.
Proof. repeat split. Qed.

(** * Further properties *)

Lemma div_infinity_plus v : infinity / (infinity + v) = nan.
Proof.
  apply Prim2SF_inj. rewrite div_spec, add_spec.
  change (Prim2SF infinity) with (S754_infinity false).
  destruct (Prim2SF v) as [s|[]| |s m e]; reflexivity.
Qed.

Lemma betaCF_nan_infinity : betaCF 101 nan 0.5 infinity = Some nan.
Proof. vm_compute. reflexivity. Qed.

Lemma incompleteBeta_nan_infinity M fuel :
  incompleteBeta M (101 + fuel) nan infinity 0.5 = Some nan.
Proof.
  unfold incompleteBeta.
  change (nan =? 0) with false. change (nan =? 1) with false. cbv iota.
  destruct (gammaLn_total M fuel (infinity + 0.5)) as [gab ->].
  destruct (gammaLn_total M fuel infinity) as [ga ->].
  destruct (gammaLn_total M fuel 0.5) as [gb ->].
  cbn [bind].
  change (nan <? (infinity + 1) / (infinity + 0.5 + 2)) with false. cbv iota.
  change (1 - nan) with nan.
  rewrite (betaCF_more_fuel fuel _ _ _ _ betaCF_nan_infinity). cbn [bind].
  rewrite mul_nan_r. reflexivity.
Qed.

(** X1: for every [t] and every [Math], [tCDF(t, NaN)] and
    [tCDF(t, +Infinity)] are NaN: the argument of the incomplete beta
    function is NaN, its continued fraction runs its 100 bodies on NaN, and
    the NaN reaches the result.  A comparison [<=] between two such values
    is false. *)
Theorem tCDF_nan_without_finite_df M fuel (t : float) :
  tCDF M (101 + fuel) t nan = Some nan
  /\ tCDF M (101 + fuel) t infinity = Some nan
  /\ (nan <=? nan) = false.
Proof.
  split; [apply tCDF_nan_df|]. split; [|reflexivity].
  unfold tCDF. rewrite div_infinity_plus.
  change (infinity / 2) with infinity.
  rewrite incompleteBeta_nan_infinity. reflexivity.
Qed.

(** X2: the examples of the specification for the degenerate and the
    small inputs of [mean] and [standardDeviation], which hold whatever
    [Math] is. *)
Theorem descriptive_examples M :
  mean [] = 0 /\ mean [5] = 5 /\ mean [1; 2; 3] = 2
  /\ standardDeviation M [5] = 0 /\ standardDeviation M [] = 0.
Proof. repeat split. Qed.

(** X3: on an engine whose [Math.pow(v, 2)] is [v * v], the sample
    standard deviation of [1, 2, 3] is exactly 1. *)
Theorem standardDeviation_example M (Hpow : forall v, Math_pow M v 2 = v * v) :
  standardDeviation M [1; 2; 3] = 1.
Proof.
  unfold standardDeviation. simpl map. rewrite !Hpow. reflexivity.
Qed.

Lemma standardDeviation_example_witness :
  standardDeviation StubMath [1; 2; 3] = 1.
Proof. apply standardDeviation_example. intros v. reflexivity. Defined.

(** * The mock provider: facts *)

Module MockFacts.
Import Mock.
Local Open Scope Z_scope.

Lemma to_int32_range z : - 2 ^ 31 <= to_int32 z < 2 ^ 31.
Proof.
  unfold to_int32. pose proof (Z.mod_pos_bound (z + 2 ^ 31) (2 ^ 32)). lia.
Qed.

Lemma to_int32_mod z : to_int32 z mod 2 ^ 32 = z mod 2 ^ 32.
Proof.
  unfold to_int32.
  rewrite <- Zminus_mod_idemp_l, Z.mod_mod by lia.
  rewrite Zminus_mod_idemp_l. f_equal. lia.
Qed.

Lemma to_int32_congr a b : a mod 2 ^ 32 = b mod 2 ^ 32 -> to_int32 a = to_int32 b.
Proof.
  intros H. unfold to_int32. f_equal.
  rewrite <- (Zplus_mod_idemp_l a), <- (Zplus_mod_idemp_l b), H. reflexivity.
Qed.

Lemma to_int32_id z : - 2 ^ 31 <= z < 2 ^ 31 -> to_int32 z = z.
Proof. intros H. unfold to_int32. rewrite Z.mod_small; lia. Qed.

Lemma simpleHash_step_poly h c :
  simpleHash_step h c = to_int32 (31 * h + c).
Proof.
  unfold simpleHash_step. rewrite Z.land_diag, Z.shiftl_mul_pow2 by lia.
  apply to_int32_congr.
  rewrite <- Zplus_mod_idemp_l, <- Zminus_mod_idemp_l, to_int32_mod.
  rewrite <- Zmult_mod_idemp_l, to_int32_mod, Zmult_mod_idemp_l.
  rewrite Zminus_mod_idemp_l, Zplus_mod_idemp_l. f_equal. lia.
Qed.

Lemma fold_step_poly l : forall h0 p0,
  h0 = to_int32 p0 ->
  fold_left simpleHash_step l h0 = to_int32 (fold_left (fun h c => 31 * h + c) l p0).
Proof.
  induction l as [|c l IH]; intros h0 p0 H; simpl; [exact H|].
  apply IH. rewrite simpleHash_step_poly. apply to_int32_congr. subst h0.
  rewrite <- Zplus_mod_idemp_l, <- Zmult_mod_idemp_r, to_int32_mod.
  rewrite Zmult_mod_idemp_r, Zplus_mod_idemp_l. reflexivity.
Qed.

Lemma firstn_sample (str : list Z) :
  firstn (Z.to_nat (Z.min (Z.of_nat (length str)) 1000)) str = firstn 1000 str.
Proof.
  destruct (Z.min_spec (Z.of_nat (length str)) 1000) as [[H ->]|[H ->]].
  - rewrite Nat2Z.id, firstn_all. symmetry. apply firstn_all2. lia.
  - reflexivity.
Qed.

Lemma simpleHash_poly31 (str : list Z) :
  simpleHash str = Z.abs (to_int32 (poly31 (firstn 1000 str))).
Proof.
  unfold simpleHash, poly31. cbv zeta. rewrite firstn_sample.
  f_equal. apply fold_step_poly. reflexivity.
Qed.

(** X4: [simpleHash] is the polynomial hash with multiplier 31 of the
    first 1000 code units, reduced to a signed 32-bit integer, in absolute
    value: the wrap-around of [hash << 5] and of [hash & hash] at every
    step changes nothing in the end.  The hash lies between 0 and [2^31]
    inclusive, and [baseRating = 3 + hash % 5] between 3 and 7. *)
Theorem simpleHash_polynomial (str : list Z) :
  simpleHash str = Z.abs (to_int32 (poly31 (firstn 1000 str)))
  /\ 0 <= simpleHash str <= 2 ^ 31
  /\ 3 <= baseRating str <= 7.
Proof.
  assert (H : 0 <= simpleHash str <= 2 ^ 31).
  { rewrite simpleHash_poly31.
    pose proof (to_int32_range (poly31 (firstn 1000 str))). lia. }
  split; [apply simpleHash_poly31|]. split; [exact H|]. unfold baseRating.
  pose proof (Z.rem_bound_pos (simpleHash str) 5). lia.
Qed.
End MockFacts.

(** * [extractRating]: facts *)

Module OllamaFacts.
Import Regex Ollama.
Local Open Scope Z_scope.

Lemma firstn_consumed_1 (c : Z) rest :
  firstn (length (c :: rest) - length rest) (c :: rest) = [c].
Proof.
  replace (length (c :: rest) - length rest)%nat with 1%nat by (simpl length; lia).
  reflexivity.
Qed.

Lemma firstn_consumed_2 (c1 c2 : Z) rest :
  firstn (length (c1 :: c2 :: rest) - length rest) (c1 :: c2 :: rest) = [c1; c2].
Proof.
  replace (length (c1 :: c2 :: rest) - length rest)%nat with 2%nat by (simpl length; lia).
  reflexivity.
Qed.

(** What the pattern does at one start position. *)
Lemma rmatch_rating prev s :
  rmatch rating_re {| st_prev := prev; st_rest := s; st_cap := None |} Some
  = if boundary prev s then
      match s with
      | c1 :: rest =>
          if (49 <=? c1) && (c1 <=? 57) && boundary (Some c1) rest
          then Some {| st_prev := Some c1; st_rest := rest; st_cap := Some [c1] |}
          else
            match rest with
            | c2 :: rest' =>
                if (c1 =? 49) && (c2 =? 48) && boundary (Some c2) rest'
                then Some {| st_prev := Some c2; st_rest := rest';
                             st_cap := Some [c1; c2] |}
                else None
            | [] => None
            end
      | [] => None
      end
    else None.
Proof.
  unfold rating_re, boundary. cbn [rmatch st_prev st_rest st_cap].
  destruct (xorb (is_word_at prev) (is_word_at (hd_error s))); [|reflexivity].
  destruct s as [|c1 rest]; [reflexivity|].
  cbn [st_prev st_rest st_cap hd_error is_word_at].
  destruct ((49 <=? c1) && (c1 <=? 57)) eqn:E1; cbn [andb].
  - cbn [rmatch st_prev st_rest st_cap hd_error is_word_at].
    destruct (xorb (is_word c1) (is_word_at (hd_error rest))) eqn:E2.
    + rewrite firstn_consumed_1. reflexivity.
    + destruct (c1 =? 49) eqn:E3; cbn [andb]; [|destruct rest; reflexivity].
      destruct rest as [|c2 rest']; [reflexivity|].
      destruct (c2 =? 48) eqn:E4; cbn [andb]; [|reflexivity].
      cbn [st_prev st_rest st_cap hd_error is_word_at].
      destruct (xorb (is_word c2) (is_word_at (hd_error rest'))); [|reflexivity].
      rewrite firstn_consumed_2. reflexivity.
  - destruct (c1 =? 49) eqn:E3; cbn [andb]; [|destruct rest; reflexivity].
    destruct rest as [|c2 rest']; [reflexivity|].
    destruct (c2 =? 48) eqn:E4; cbn [andb]; [|reflexivity].
    cbn [st_prev st_rest st_cap hd_error is_word_at].
    destruct (xorb (is_word c2) (is_word_at (hd_error rest'))); [|reflexivity].
    rewrite firstn_consumed_2. reflexivity.
Qed.

Lemma exec_unfold r prev s :
  exec r prev s
  = match rmatch r {| st_prev := prev; st_rest := s; st_cap := None |} Some with
    | Some y => Some y
    | None => match s with [] => None | c :: s' => exec r (Some c) s' end
    end.
Proof. destruct s; reflexivity. Qed.



(** The pattern at the start of a numeral that ends at a non-word code
    unit or at the end of the input. *)
Lemma rmatch_numeral n prev rest :
  1 <= n <= 10 ->
  is_word_at prev = false ->
  is_word_at (hd_error rest) = false ->
  exists y,
    rmatch rating_re
      {| st_prev := prev; st_rest := numeral n ++ rest; st_cap := None |} Some
    = Some y
    /\ st_cap y = Some (numeral n).
Proof.
  intros Hn Hp Hr. rewrite rmatch_rating. unfold numeral, boundary.
  destruct (Z.eqb_spec n 10) as [->|Hne].
  - cbn [app hd_error is_word_at]. rewrite Hp, Hr.
    eexists. split; reflexivity.
  - cbn [app hd_error is_word_at]. rewrite Hp, Hr.
    assert (Hw : is_word (48 + n) = true).
    { unfold is_word.
      replace ((48 <=? 48 + n) && (48 + n <=? 57)) with true; [reflexivity|].
      symmetry. apply andb_true_intro. split; apply Z.leb_le; lia. }
    rewrite Hw. cbn [xorb].
    replace ((49 <=? 48 + n) && (48 + n <=? 57)) with true
      by (symmetry; apply andb_true_intro; split; apply Z.leb_le; lia).
    eexists. split; reflexivity.
Qed.

Lemma parseInt10_numeral n : 1 <= n <= 10 -> parseInt10 (numeral n) = Some n.
Proof.
  intros H. unfold numeral. destruct (Z.eqb_spec n 10) as [->|Hne]; [reflexivity|].
  unfold parseInt10, digits_value, is_digit.
  replace ((48 <=? 48 + n) && (48 + n <=? 57)) with true
    by (symmetry; apply andb_true_intro; split; apply Z.leb_le; lia).
  f_equal. lia.
Qed.

(** X6: a rating from 1 to 10 that stands first in the response, after
    non-word code units only (spaces, a sign, a bracket) and before a
    non-word code unit or the end, is the rating returned, whatever comes
    after it. *)
Theorem extractRating_leading_numeral (pre rest : list Z) (n : Z)
    (Hn : 1 <= n <= 10)
    (Hpre : Forall (fun c => is_word c = false) pre)
    (Hrest : is_word_at (hd_error rest) = false) :
  extractRating (pre ++ numeral n ++ rest) = Some n.
Proof.
  assert (H : forall prev, is_word_at prev = false ->
            exists y, exec rating_re prev (pre ++ numeral n ++ rest) = Some y
                      /\ st_cap y = Some (numeral n)).
  { induction Hpre as [|c pre Hc Hpre IH]; intros prev Hp.
    - cbn [app]. rewrite exec_unfold.
      destruct (rmatch_numeral n prev rest Hn Hp Hrest) as (y & -> & Hy).
      exists y. split; [reflexivity|exact Hy].
    - cbn [app]. rewrite exec_unfold, rmatch_rating.
      unfold boundary at 1. cbn [hd_error is_word_at]. rewrite Hp, Hc.
      cbn [xorb]. apply IH. exact Hc. }
  unfold extractRating. destruct (H None eq_refl) as (y & -> & ->).
  apply parseInt10_numeral, Hn.
Qed.

(** No match starts after a word code unit inside a run of word code
    units. *)
Lemma exec_inside_word s : forall w,
  is_word w = true -> Forall (fun c => is_word c = true) s ->
  exec rating_re (Some w) s = None.
Proof.
  induction s as [|c s IH]; intros w Hw Hs; rewrite exec_unfold, rmatch_rating.
  - unfold boundary. cbn [hd_error is_word_at]. rewrite Hw. reflexivity.
  - inversion Hs as [|? ? Hc Hs']; subst.
    unfold boundary at 1. cbn [hd_error is_word_at]. rewrite Hw, Hc.
    cbn [xorb]. apply IH; assumption.
Qed.

(** X7: a response made of word code units only (letters, digits, underscore)
    that is not itself a numeral from 1 to 10 holds no rating: digits
    inside a longer token are not read, and the fallback 5 is returned. *)
Theorem extractRating_single_token (response : list Z)
    (Hword : Forall (fun c => is_word c = true) response)
    (Hnot : forall n, 1 <= n <= 10 -> response <> numeral n) :
  extractRating response = Some 5.
Proof.
  unfold extractRating.
  replace (exec rating_re None response) with (@None mstate); [reflexivity|].
  symmetry. rewrite exec_unfold, rmatch_rating.
  destruct response as [|c1 rest]; [reflexivity|].
  inversion Hword as [|? ? Hc1 Hrest]; subst.
  unfold boundary at 1. cbn [hd_error is_word_at]. rewrite Hc1. cbn [xorb].
  destruct ((49 <=? c1) && (c1 <=? 57) && boundary (Some c1) rest) eqn:E1.
  - exfalso. apply andb_prop in E1 as [E1 Eb]. apply andb_prop in E1 as [Ea Ec].
    apply Z.leb_le in Ea, Ec.
    destruct rest as [|c2 rest'].
    + apply (Hnot (c1 - 48)); [lia|]. unfold numeral.
      destruct (Z.eqb_spec (c1 - 48) 10); [lia|]. f_equal. lia.
    + inversion Hrest as [|? ? Hc2 _]; subst.
      unfold boundary in Eb. cbn [hd_error is_word_at] in Eb.
      rewrite Hc1, Hc2 in Eb. discriminate.
  - destruct rest as [|c2 rest']; [apply exec_inside_word; assumption|].
    inversion Hrest as [|? ? Hc2 Hrest']; subst.
    destruct ((c1 =? 49) && (c2 =? 48) && boundary (Some c2) rest') eqn:E2;
      [|apply exec_inside_word; assumption].
    exfalso. apply andb_prop in E2 as [E2 Eb]. apply andb_prop in E2 as [Ea Ec].
    apply Z.eqb_eq in Ea, Ec. subst.
    destruct rest' as [|c3 rest''].
    + apply (Hnot 10); [lia|reflexivity].
    + inversion Hrest' as [|? ? Hc3 _]; subst.
      unfold boundary in Eb. cbn [hd_error is_word_at] in Eb.
      rewrite Hc3 in Eb. discriminate.
Qed.

(** The response [" *7/10"]: the rating is 7. *)
Lemma extractRating_leading_numeral_witness :
  extractRating ([32; 42] ++ numeral 7 ++ [47; 49; 48]) = Some 7.
Proof.
  apply extractRating_leading_numeral.
  - lia.
  - repeat constructor.
  - reflexivity.
Defined.

(** The response ["100"]: no rating is read, the fallback is returned. *)
Lemma extractRating_single_token_witness :
  extractRating [49; 48; 48] = Some 5.
Proof.
  apply extractRating_single_token.
  - repeat constructor.
  - intros n Hn. unfold numeral.
    destruct (Z.eqb_spec n 10); discriminate.
Defined.
End OllamaFacts.

(** * Boundary values of the test *)

Module Boundary.
Local Open Scope Z_scope.

Lemma finite_nonzero_shape x :
  finite_nonzero x = true -> exists s m e, Prim2SF x = S754_finite s m e.
Proof.
  unfold finite_nonzero, is_finite, is_nan, is_infinity, is_zero.
  rewrite !FloatAxioms.eqb_spec, abs_spec.
  change (Prim2SF infinity) with (S754_infinity false).
  change (Prim2SF zero) with (S754_zero false).
  destruct (Prim2SF x) as [s|s| |s m e]; try discriminate; eauto.
  destruct s; discriminate.
Qed.

Lemma SFdiv_self s m e :
  SF64div (S754_finite s m e) (S754_finite s m e) = one_sf.
Proof.
  unfold SF64div, SFdiv, SFdiv_core_binary.
  rewrite !Z.sub_diag.
  change (Z.min (fexp prec emax 0) 0) with (-53).
  change (0 - -53) with 53.
  cbv iota.
  rewrite Z.shiftl_mul_pow2 by lia.
  replace (Z.div_eucl (Z.pos m * 2 ^ 53) (Z.pos m)) with (2 ^ 53, 0).
  - replace (new_location (Z.pos m) 0) with loc_Exact
      by (unfold new_location; destruct (Z.even (Z.pos m)); reflexivity).
    destruct s; reflexivity.
  - assert (Hq : (Z.pos m * 2 ^ 53) / Z.pos m = 2 ^ 53)
      by (rewrite Z.mul_comm; apply Z.div_mul; lia).
    assert (Hr : (Z.pos m * 2 ^ 53) mod Z.pos m = 0)
      by (rewrite Z.mul_comm; apply Z.mod_mul; lia).
    unfold Z.div, Z.modulo in Hq, Hr.
    destruct (Z.div_eucl (Z.pos m * 2 ^ 53) (Z.pos m)) as [q r].
    subst. reflexivity.
Qed.

Lemma SFsub_self x :
  (exists s m e, x = S754_finite s m e) \/ (exists s, x = S754_zero s) ->
  SF64sub x x = S754_zero false.
Proof.
  intros [(s & m & e & ->)|(s & ->)].
  - unfold SF64sub, SFsub. rewrite Z.sub_diag. reflexivity.
  - destruct s; reflexivity.
Qed.

Lemma SFdiv_zero_l s y :
  SF64div (S754_zero s) y = S754_nan \/ exists s', SF64div (S754_zero s) y = S754_zero s'.
Proof. destruct y; simpl; eauto. Qed.
End Boundary.

Lemma div_self x : finite_nonzero x = true -> x / x = 1.
Proof.
  intros H. destruct (Boundary.finite_nonzero_shape x H) as (s & m & e & E).
  apply Prim2SF_inj. rewrite div_spec, E. apply Boundary.SFdiv_self.
Qed.

Lemma add_zero_r x : finite_nonzero x = true -> x + 0 = x.
Proof.
  intros H. destruct (Boundary.finite_nonzero_shape x H) as (s & m & e & E).
  apply Prim2SF_inj. rewrite add_spec, E. reflexivity.
Qed.

Lemma add_infinity_r x : finite_nonzero x = true -> x + infinity = infinity.
Proof.
  intros H. destruct (Boundary.finite_nonzero_shape x H) as (s & m & e & E).
  apply Prim2SF_inj. rewrite add_spec, E. reflexivity.
Qed.

Lemma div_infinity_zero x :
  finite_nonzero x = true -> (x / infinity =? 0) = true.
Proof.
  intros H. destruct (Boundary.finite_nonzero_shape x H) as (s & m & e & E).
  rewrite FloatAxioms.eqb_spec, div_spec, E. destruct s; reflexivity.
Qed.

(** X8: for finite, non-zero degrees of freedom the CDF is exactly one
    half at [t = 0] and exactly 1 at [t = +Infinity]; at [t = -Infinity] it
    is 1 as well, since [t] enters through [t * t] only.  No engine-defined
    function is called at these points, nor is any budget needed. *)
Theorem tCDF_endpoints M fuel (df : float) (Hdf : finite_nonzero df = true) :
  tCDF M fuel 0 df = Some 0.5
  /\ tCDF M fuel infinity df = Some 1
  /\ tCDF M fuel neg_infinity df = Some 1.
Proof.
  unfold tCDF, incompleteBeta.
  change (0 * 0) with 0. change (infinity * infinity) with infinity.
  change (neg_infinity * neg_infinity) with infinity.
  rewrite add_zero_r, add_infinity_r, div_self, div_infinity_zero by exact Hdf.
  repeat split.
Qed.

Lemma tCDF_endpoints_witness :
  tCDF StubMath 0 0 4 = Some 0.5
  /\ tCDF StubMath 0 infinity 4 = Some 1
  /\ tCDF StubMath 0 neg_infinity 4 = Some 1.
Proof. apply tCDF_endpoints. reflexivity. Defined.

(** * Integers as binary64 numbers *)

Module Exact.
Import IEEE.
Local Open Scope Z_scope.

Lemma shr_1_even m :
  0 < m ->
  shr_1 {| shr_m := 2 * m; shr_r := false; shr_s := false |}
  = {| shr_m := m; shr_r := false; shr_s := false |}.
Proof. destruct m as [|p|p]; try lia. reflexivity. Qed.

(** Shifting out [n] zero bits is exact. *)
Lemma iter_shr_1_exact n : forall m,
  0 < m ->
  SpecFloat.iter_pos shr_1 n
    {| shr_m := m * 2 ^ Z.pos n; shr_r := false; shr_s := false |}
  = {| shr_m := m; shr_r := false; shr_s := false |}.
Proof.
  induction n as [n IH|n IH|]; intros m Hm; cbn [SpecFloat.iter_pos].
  - replace (m * 2 ^ Z.pos n~1) with (2 * ((m * 2 ^ Z.pos n) * 2 ^ Z.pos n)).
    + rewrite shr_1_even, IH, IH; auto.
      * apply Z.mul_pos_pos; [lia|apply Z.pow_pos_nonneg; lia].
      * apply Z.mul_pos_pos; [|apply Z.pow_pos_nonneg; lia].
        apply Z.mul_pos_pos; [lia|apply Z.pow_pos_nonneg; lia].
    + assert (E : 2 ^ Z.pos n~1 = 2 * (2 ^ Z.pos n * 2 ^ Z.pos n)).
      { rewrite <- Z.pow_add_r, <- Z.pow_succ_r by lia. f_equal. lia. }
      rewrite E. ring.
  - replace (m * 2 ^ Z.pos n~0) with ((m * 2 ^ Z.pos n) * 2 ^ Z.pos n).
    + rewrite IH, IH; auto.
      apply Z.mul_pos_pos; [lia|apply Z.pow_pos_nonneg; lia].
    + assert (E : 2 ^ Z.pos n~0 = 2 ^ Z.pos n * 2 ^ Z.pos n).
      { rewrite <- Z.pow_add_r by lia. f_equal. lia. }
      rewrite E. ring.
  - change (2 ^ 1) with 2. rewrite Z.mul_comm. apply shr_1_even, Hm.
Qed.

Lemma Zdigits2_mul_pow2 m k :
  0 < m -> 0 <= k -> Zdigits2 (m * 2 ^ k) = Zdigits2 m + k.
Proof.
  intros Hm Hk. destruct m as [|p|p]; try lia.
  assert (Hp : 0 < 2 ^ k) by (apply Z.pow_pos_nonneg; lia).
  apply Zdigits2_unique; [apply Z.mul_pos_pos; lia|].
  pose proof (Zdigits2_bounds p) as [B1 B2].
  replace (Zdigits2 (Z.pos p) + k - 1) with ((Zdigits2 (Z.pos p) - 1) + k) by lia.
  assert (0 < Zdigits2 (Z.pos p)).
  { rewrite Zdigits2_log2. pose proof (Z.log2_nonneg (Z.pos p)). lia. }
  rewrite !Z.pow_add_r by lia.
  split; [apply Z.mul_le_mono_nonneg_r; lia | apply Z.mul_lt_mono_pos_r; lia].
Qed.

(** Rounding a mantissa that is a 53-digit number followed by [n] zero bits. *)
Lemma binary_round_aux_exact m n e :
  0 < m -> Zdigits2 m = 53 -> 0 <= n -> -1074 <= e + n <= 971 ->
  binary_round_aux prec emax false (m * 2 ^ n) e loc_Exact
  = S754_finite false (Z.to_pos m) (e + n).
Proof.
  intros Hm HD Hn He. unfold binary_round_aux.
  assert (Hshr : forall e', e' + n = e + n ->
     shr_fexp prec emax (m * 2 ^ n) e' loc_Exact
     = ({| shr_m := m; shr_r := false; shr_s := false |}, e + n)).
  { intros e' He'. unfold shr_fexp.
    rewrite Zdigits2_mul_pow2, HD by lia.
    unfold fexp, SpecFloat.emin, prec, emax.
    replace (Z.max (53 + n + e' - 53) (3 - 1024 - 53) - e') with n by lia.
    unfold shr_record_of_loc, shr.
    destruct n as [|n|n]; try lia.
    - rewrite Z.mul_1_r. f_equal. lia.
    - rewrite iter_shr_1_exact by lia. f_equal. lia. }
  rewrite (Hshr e eq_refl). cbn [shr_m loc_of_shr_record round_nearest_even].
  assert (Hshr0 : shr_fexp prec emax m (e + n) loc_Exact
     = ({| shr_m := m; shr_r := false; shr_s := false |}, e + n)).
  { unfold shr_fexp. rewrite HD. unfold fexp, SpecFloat.emin, prec, emax.
    replace (Z.max (53 + (e + n) - 53) (3 - 1024 - 53) - (e + n)) with 0 by lia.
    reflexivity. }
  rewrite Hshr0. cbn [shr_m].
  destruct m as [|p|p]; try lia.
  replace (e + n <=? emax - prec) with true
    by (symmetry; apply Z.leb_le; unfold emax, prec; lia).
  reflexivity.
Qed.

Lemma Zdigits2_pos p : 0 < Zdigits2 (Z.pos p).
Proof. rewrite Zdigits2_log2. pose proof (Z.log2_nonneg (Z.pos p)). lia. Qed.

Lemma Zdigits2_le_53 p : Z.pos p < 2 ^ 53 -> Zdigits2 (Z.pos p) <= 53.
Proof.
  intros H. pose proof (Zdigits2_bounds p) as [B _].
  destruct (Z.le_gt_cases (Zdigits2 (Z.pos p)) 53) as [|Hgt]; [assumption|].
  exfalso. assert (2 ^ 53 <= 2 ^ (Zdigits2 (Z.pos p) - 1))
    by (apply Z.pow_le_mono_r; lia). lia.
Qed.

(** Rounding an integer [c < 2^53] written with [k] extra zero bits. *)
Lemma binary_round_int c k :
  Z.pos c < 2 ^ 53 -> 0 <= k ->
  binary_round prec emax false (Z.to_pos (Z.pos c * 2 ^ k)) (- k)
  = canonical (Z.pos c).
Proof.
  intros Hc Hk.
  pose proof (Zdigits2_pos c) as HD0. pose proof (Zdigits2_le_53 c Hc) as HD.
  assert (H2k : 0 < 2 ^ k) by (apply Z.pow_pos_nonneg; lia).
  assert (Hck : 0 < Z.pos c * 2 ^ k) by (apply Z.mul_pos_pos; lia).
  unfold binary_round, canonical.
  change (Z.pos (digits2_pos ?p)) with (Zdigits2 (Z.pos p)).
  rewrite Z2Pos.id, Zdigits2_mul_pow2 by lia.
  set (D := Zdigits2 (Z.pos c)) in *.
  unfold fexp, SpecFloat.emin, prec, emax.
  replace (Z.max (D + k + - k - 53) (3 - 1024 - 53)) with (D - 53) by lia.
  unfold shl_align.
  assert (Hm : 0 < Z.pos c * 2 ^ (53 - D))
    by (apply Z.mul_pos_pos; [lia|apply Z.pow_pos_nonneg; lia]).
  assert (HDm : Zdigits2 (Z.pos c * 2 ^ (53 - D)) = 53)
    by (rewrite Zdigits2_mul_pow2 by lia; fold D; lia).
  destruct (D - 53 - - k) as [|n|n] eqn:E.
  - rewrite Z2Pos.id by lia.
    replace (Z.pos c * 2 ^ k) with ((Z.pos c * 2 ^ (53 - D)) * 2 ^ 0)
      by (replace k with (53 - D) by lia; rewrite Z.mul_1_r; reflexivity).
    rewrite binary_round_aux_exact by lia. f_equal. lia.
  - rewrite Z2Pos.id by lia.
    replace (Z.pos c * 2 ^ k) with ((Z.pos c * 2 ^ (53 - D)) * 2 ^ Z.pos n).
    + rewrite binary_round_aux_exact by lia. f_equal. lia.
    + rewrite <- Z.mul_assoc, <- Z.pow_add_r by lia. do 2 f_equal. lia.
  - rewrite pos_iter_xO, Z2Pos.id by lia.
    replace (Z.pos c * 2 ^ k * 2 ^ Z.pos n)
      with ((Z.pos c * 2 ^ (53 - D)) * 2 ^ 0).
    + rewrite binary_round_aux_exact by lia. f_equal. lia.
    + rewrite Z.mul_1_r, <- Z.mul_assoc, <- Z.pow_add_r by lia.
      do 2 f_equal. lia.
Qed.

Lemma binary_normalize_int z :
  0 <= z < 2 ^ 53 -> binary_normalize prec emax z 0 false = canonical z.
Proof.
  intros H. destruct z as [|c|c]; try lia; [reflexivity|].
  unfold binary_normalize.
  pose proof (binary_round_int c 0) as E.
  rewrite Z.mul_1_r, Pos2Z.id in E. apply E; lia.
Qed.

Lemma canonical_pos c :
  canonical (Z.pos c)
  = S754_finite false (Z.to_pos (Z.pos c * 2 ^ (53 - Zdigits2 (Z.pos c))))
      (Zdigits2 (Z.pos c) - 53).
Proof. reflexivity. Qed.

(** The mantissa of [canonical], aligned to an exponent [ez]. *)
Lemma canonical_aligned c ez :
  Z.pos c < 2 ^ 53 -> ez <= Zdigits2 (Z.pos c) - 53 ->
  Z.pos (fst (shl_align (Z.to_pos (Z.pos c * 2 ^ (53 - Zdigits2 (Z.pos c))))
                 (Zdigits2 (Z.pos c) - 53) ez))
  = Z.pos c * 2 ^ (- ez).
Proof.
  intros Hc Hez.
  pose proof (Zdigits2_pos c) as HD0. pose proof (Zdigits2_le_53 c Hc) as HD.
  rewrite shl_align_value by lia.
  rewrite Z2Pos.id
    by (apply Z.mul_pos_pos; [lia|apply Z.pow_pos_nonneg; lia]).
  rewrite <- Z.mul_assoc, <- Z.pow_add_r by lia. do 2 f_equal. lia.
Qed.

Lemma SFadd_canonical a b :
  0 <= a -> 0 <= b -> a + b < 2 ^ 53 ->
  SF64add (canonical a) (canonical b) = canonical (a + b).
Proof.
  intros Ha Hb Hab.
  destruct a as [|a|a]; try lia; [destruct b; reflexivity|].
  destruct b as [|b|b]; try lia; [reflexivity|].
  rewrite (canonical_pos a), (canonical_pos b). unfold SF64add, SFadd.
  set (ez := Z.min (Zdigits2 (Z.pos a) - 53) (Zdigits2 (Z.pos b) - 53)).
  pose proof (Zdigits2_le_53 a ltac:(lia)). pose proof (Zdigits2_le_53 b ltac:(lia)).
  rewrite !canonical_aligned by (unfold ez; lia).
  unfold cond_Zopp, binary_normalize.
  rewrite <- Z.mul_add_distr_r.
  assert (Hp : 0 < 2 ^ (- ez)) by (apply Z.pow_pos_nonneg; unfold ez; lia).
  change (Z.pos a + Z.pos b) with (Z.pos (a + b)).
  destruct (Z.pos (a + b) * 2 ^ (- ez)) as [|q|q] eqn:E; try lia.
  pose proof (binary_round_int (a + b) (- ez)) as R.
  rewrite E in R. rewrite Z.opp_involutive in R. cbn [Z.to_pos] in R.
  apply R; [exact Hab|unfold ez; lia].
Qed.

Lemma SFsub_canonical a b :
  0 <= b <= a -> a < 2 ^ 53 ->
  SF64sub (canonical a) (canonical b) = canonical (a - b).
Proof.
  intros Hb Ha.
  destruct b as [|b|b]; try lia.
  { rewrite Z.sub_0_r. destruct a; reflexivity. }
  destruct a as [|a|a]; try lia.
  rewrite (canonical_pos a), (canonical_pos b). unfold SF64sub, SFsub.
  set (ez := Z.min (Zdigits2 (Z.pos a) - 53) (Zdigits2 (Z.pos b) - 53)).
  pose proof (Zdigits2_le_53 a ltac:(lia)). pose proof (Zdigits2_le_53 b ltac:(lia)).
  rewrite !canonical_aligned by (unfold ez; lia).
  unfold cond_Zopp, binary_normalize.
  rewrite <- Z.mul_sub_distr_r.
  assert (Hp : 0 < 2 ^ (- ez)) by (apply Z.pow_pos_nonneg; unfold ez; lia).
  destruct (Z.pos a - Z.pos b) as [|c|c] eqn:Ec; try lia; [reflexivity|].
  destruct (Z.pos c * 2 ^ (- ez)) as [|q|q] eqn:E; try lia.
  pose proof (binary_round_int c (- ez)) as R.
  rewrite E in R. rewrite Z.opp_involutive in R. cbn [Z.to_pos] in R.
  apply R; [lia|unfold ez; lia].
Qed.
End Exact.

Module Exact2.
Import IEEE Exact.
Local Open Scope Z_scope.

Lemma canonical_mantissa_mono a b :
  Zdigits2 (Z.pos a) = Zdigits2 (Z.pos b) -> Z.pos b < 2 ^ 53 ->
  (Z.to_pos (Z.pos a * 2 ^ (53 - Zdigits2 (Z.pos a)))
     ?= Z.to_pos (Z.pos b * 2 ^ (53 - Zdigits2 (Z.pos b))))%positive
  = (Z.pos a ?= Z.pos b).
Proof.
  intros HD Hb. rewrite HD.
  pose proof (Zdigits2_le_53 b Hb) as H53.
  assert (Hp : 0 < 2 ^ (53 - Zdigits2 (Z.pos b))) by (apply Z.pow_pos_nonneg; lia).
  rewrite <- Z2Pos.inj_compare by (apply Z.mul_pos_pos; lia).
  symmetry. apply Zmult_compare_compat_r. lia.
Qed.

Lemma SFltb_canonical a b :
  0 <= a < 2 ^ 53 -> 0 <= b < 2 ^ 53 ->
  SFltb (canonical a) (canonical b) = (a <? b).
Proof.
  intros Ha Hb.
  destruct a as [|a|a]; try lia; destruct b as [|b|b]; try lia; try reflexivity.
  rewrite (canonical_pos a), (canonical_pos b). unfold SFltb, SFcompare.
  pose proof (Zdigits2_bounds a) as [A1 A2].
  pose proof (Zdigits2_bounds b) as [B1 B2].
  pose proof (Zdigits2_pos a). pose proof (Zdigits2_pos b).
  destruct (Z.compare_spec (Zdigits2 (Z.pos a) - 53) (Zdigits2 (Z.pos b) - 53))
    as [E|E|E].
  - rewrite Pos.compare_cont_spec, canonical_mantissa_mono by lia.
    unfold Z.ltb. destruct (Z.pos a ?= Z.pos b); reflexivity.
  - assert (2 ^ Zdigits2 (Z.pos a) <= 2 ^ (Zdigits2 (Z.pos b) - 1))
      by (apply Z.pow_le_mono_r; lia).
    symmetry. apply Z.ltb_lt. lia.
  - assert (2 ^ Zdigits2 (Z.pos b) <= 2 ^ (Zdigits2 (Z.pos a) - 1))
      by (apply Z.pow_le_mono_r; lia).
    symmetry. apply Z.ltb_ge. lia.
Qed.

(** Doubling an integer is exact. *)
Lemma SFmul_canonical_two a :
  0 <= a -> 2 * a < 2 ^ 53 ->
  SF64mul (canonical a) (canonical 2) = canonical (2 * a).
Proof.
  intros Ha H2.
  destruct a as [|a|a]; try lia; [reflexivity|].
  rewrite (canonical_pos a).
  change (canonical 2) with (S754_finite false 4503599627370496 (-51)).
  unfold SF64mul, SFmul. cbn [xorb].
  pose proof (Zdigits2_pos a) as HD0.
  pose proof (Zdigits2_le_53 a ltac:(lia)) as HD.
  set (D := Zdigits2 (Z.pos a)) in *.
  assert (Hm : 0 < Z.pos a * 2 ^ (53 - D))
    by (apply Z.mul_pos_pos; [lia|apply Z.pow_pos_nonneg; lia]).
  rewrite Pos2Z.inj_mul, Z2Pos.id by lia.
  change (Z.pos 4503599627370496) with (2 ^ 52).
  rewrite binary_round_aux_exact; try lia.
  - change (2 * Z.pos a) with (Z.pos (a~0)). rewrite (canonical_pos (a~0)).
    assert (HD2 : Zdigits2 (Z.pos a~0) = D + 1).
    { change (Z.pos a~0) with (2 * Z.pos a).
      rewrite Z.mul_comm. change 2 with (2 ^ 1) at 1.
      rewrite Zdigits2_mul_pow2 by lia. reflexivity. }
    pose proof (Zdigits2_le_53 (a~0) ltac:(lia)) as HD3. rewrite HD2 in HD3.
    rewrite HD2. f_equal; [|lia].
    f_equal. change (Z.pos a~0) with (2 * Z.pos a).
    replace (53 - D) with (1 + (53 - (D + 1))) by lia.
    rewrite Z.pow_add_r by lia. change (2 ^ 1) with 2. ring.
  - rewrite Zdigits2_mul_pow2 by lia. fold D. lia.
Qed.
End Exact2.

(** ** Integers as numbers *)

Lemma Prim2SF_num n :
  (Z.of_nat n < 2 ^ 53)%Z -> Prim2SF (num_of_nat n) = canonical (Z.of_nat n).
Proof.
  intros H. unfold num_of_nat.
  rewrite of_uint63_spec, Uint63.of_Z_spec, Z.mod_small.
  - apply Exact.binary_normalize_int. lia.
  - split; [lia|]. eapply Z.lt_trans; [exact H|]. reflexivity.
Qed.

Lemma num_succ n :
  (Z.of_nat (S n) < 2 ^ 53)%Z -> num_of_nat n + 1 = num_of_nat (S n).
Proof.
  intros H. apply Prim2SF_inj.
  rewrite FloatAxioms.add_spec, !Prim2SF_num by lia.
  change (Prim2SF 1) with (canonical 1).
  rewrite Exact.SFadd_canonical by lia. f_equal. lia.
Qed.

Lemma num_pred n :
  (0 < n)%nat -> (Z.of_nat n < 2 ^ 53)%Z -> num_of_nat n - 1 = num_of_nat (n - 1).
Proof.
  intros Hn H. apply Prim2SF_inj.
  rewrite FloatAxioms.sub_spec, !Prim2SF_num by lia.
  change (Prim2SF 1) with (canonical 1).
  rewrite Exact.SFsub_canonical by lia. f_equal. lia.
Qed.

Lemma num_double n :
  (Z.of_nat (2 * n) < 2 ^ 53)%Z -> num_of_nat n * 2 = num_of_nat (2 * n).
Proof.
  intros H. apply Prim2SF_inj.
  rewrite FloatAxioms.mul_spec, !Prim2SF_num by lia.
  change (Prim2SF 2) with (canonical 2).
  rewrite Exact2.SFmul_canonical_two by lia. f_equal. lia.
Qed.

Lemma num_ltb a b :
  (Z.of_nat a < 2 ^ 53)%Z -> (Z.of_nat b < 2 ^ 53)%Z ->
  (num_of_nat a <? num_of_nat b) = (a <? b)%nat.
Proof.
  intros Ha Hb. rewrite FloatAxioms.ltb_spec, !Prim2SF_num by assumption.
  rewrite Exact2.SFltb_canonical by lia.
  destruct (Nat.ltb_spec a b); [apply Z.ltb_lt|apply Z.ltb_ge]; lia.
Qed.

Lemma num_iter n :
  (Z.of_nat n < 2 ^ 53)%Z -> Nat.iter n (fun i => i + 1) 0 = num_of_nat n.
Proof.
  induction n as [|n IH]; intros H; [reflexivity|].
  rewrite Nat.iter_succ, IH by lia. apply num_succ, H.
Qed.

(** * Samples without spread and samples with equal means *)

Lemma zero_div_num n :
  (0 < n)%nat -> (Z.of_nat n < 2 ^ 53)%Z -> 0 / num_of_nat n = 0.
Proof.
  intros Hpos Hn. apply Prim2SF_inj.
  rewrite div_spec, Prim2SF_num by exact Hn.
  destruct (Z.of_nat n) as [|p|p] eqn:E; try lia. reflexivity.
Qed.

Lemma zero_div_pred n :
  (0 < n)%nat -> (Z.of_nat n < 2 ^ 53)%Z ->
  0 / (num_of_nat n - 1) = 0 \/ 0 / (num_of_nat n - 1) = nan.
Proof.
  intros Hpos Hn. rewrite num_pred by assumption.
  destruct (n - 1)%nat as [|k] eqn:E.
  - right. reflexivity.
  - left. apply zero_div_num; lia.
Qed.

Lemma zero_spread_df M (n1 n2 : nat) :
  pow_zero_exact M ->
  (0 < n1)%nat -> (Z.of_nat n1 < 2 ^ 53)%Z ->
  (0 < n2)%nat -> (Z.of_nat n2 < 2 ^ 53)%Z ->
  Math_pow M (0 * 0 / num_of_nat n1 + 0 * 0 / num_of_nat n2) 2
  / (Math_pow M (0 * 0 / num_of_nat n1) 2 / (num_of_nat n1 - 1)
     + Math_pow M (0 * 0 / num_of_nat n2) 2 / (num_of_nat n2 - 1)) = nan.
Proof.
  unfold pow_zero_exact. intros Hpow H1 L1 H2 L2.
  change (0 * 0) with 0. rewrite !zero_div_num by assumption.
  change (0 + 0) with 0. rewrite Hpow.
  destruct (zero_div_pred n1 H1 L1) as [-> | ->];
    destruct (zero_div_pred n2 H2 L2) as [-> | ->]; reflexivity.
Qed.

Lemma div_zero_not_finite x : is_finite (x / 0) = false.
Proof.
  assert (H : Prim2SF (x / 0) = S754_nan
              \/ exists s, Prim2SF (x / 0) = S754_infinity s).
  { rewrite div_spec. change (Prim2SF 0) with (S754_zero false).
    destruct (Prim2SF x) as [s|s| |s m e]; simpl; eauto. }
  unfold is_finite, is_nan, is_infinity.
  rewrite !FloatAxioms.eqb_spec, abs_spec.
  destruct H as [-> | [s ->]]; [reflexivity|destruct s; reflexivity].
Qed.

(** X9: when neither sample has any spread (each standard deviation is 0, as
    when a provider answers the same rating every time), the standard
    error is 0: the t statistic and the effect size are infinite or NaN,
    the degrees of freedom are [0 / 0], the p-value is NaN and the
    difference is reported as not significant, however far apart the two
    means are. *)
Theorem zero_spread_not_significant M fuel (s1 s2 : list float)
    (Hpow : pow_zero_exact M)
    (Hne1 : s1 <> []) (Hne2 : s2 <> [])
    (Hlen1 : (Z.of_nat (length s1) < 2 ^ 53)%Z)
    (Hlen2 : (Z.of_nat (length s2) < 2 ^ 53)%Z)
    (Hsd1 : standardDeviation M s1 = 0)
    (Hsd2 : standardDeviation M s2 = 0) :
  exists r,
    independentTTest M (101 + fuel) s1 s2 = Some r
    /\ degreesOfFreedom r = nan /\ pValue r = nan /\ isSignificant r = false
    /\ is_finite (tStatistic r) = false /\ is_finite (effectSize r) = false.
Proof.
  assert (H1 : (0 < length s1)%nat) by (destruct s1; [congruence|simpl; lia]).
  assert (H2 : (0 < length s2)%nat) by (destruct s2; [congruence|simpl; lia]).
  destruct (independentTTest_total M fuel s1 s2) as [r Hr].
  exists r. split; [exact Hr|].
  revert Hr. unfold independentTTest. cbv zeta. rewrite Hsd1, Hsd2.
  change (length_num s1) with (num_of_nat (length s1)).
  change (length_num s2) with (num_of_nat (length s2)).
  rewrite zero_spread_df by assumption.
  rewrite tCDF_nan_df. cbn [bind]. intros [= <-].
  cbn [degreesOfFreedom pValue isSignificant tStatistic effectSize].
  change (0 * 0) with 0. rewrite !zero_div_num by assumption.
  change (Math_sqrt (0 + 0)) with 0. change (Math_sqrt ((0 + 0) / 2)) with 0.
  split; [reflexivity|]. split; [reflexivity|]. split; [reflexivity|].
  split; apply div_zero_not_finite.
Qed.

Lemma tCDF_at_zero M fuel df :
  finite_nonzero df = true -> tCDF M fuel 0 df = Some 0.5.
Proof.
  intros Hdf. unfold tCDF, incompleteBeta. change (0 * 0) with 0.
  rewrite add_zero_r, div_self by exact Hdf. reflexivity.
Qed.

Lemma abs_of_zero t : is_zero t = true -> Math_abs t = 0.
Proof.
  unfold is_zero, Math_abs. rewrite FloatAxioms.eqb_spec. intros H.
  apply Prim2SF_inj. rewrite abs_spec.
  change (Prim2SF zero) with (S754_zero false) in H.
  change (Prim2SF 0) with (S754_zero false).
  destruct (Prim2SF t) as [s|s| |s m e]; try reflexivity;
    try destruct s; discriminate H.
Qed.

(** X10: when the t statistic is zero (the two means are equal) and the
    degrees of freedom are a finite number other than zero, the p-value is
    exactly 1 on every engine: [tCDF] reaches [incompleteBeta] at [x = 1],
    where no engine-defined function is called. *)
Theorem zero_statistic_pvalue_one M fuel (s1 s2 : list float) (r : TestResult)
    (Hrun : independentTTest M fuel s1 s2 = Some r)
    (Ht : is_zero (tStatistic r) = true)
    (Hdf : finite_nonzero (degreesOfFreedom r) = true) :
  pValue r = 1 /\ isSignificant r = false.
Proof.
  revert Hrun Ht Hdf. unfold independentTTest. cbv zeta.
  destruct (tCDF M fuel _ _) as [cdf|] eqn:Hcdf; [|discriminate].
  cbn [bind]. intros [= <-]. cbn [tStatistic degreesOfFreedom pValue isSignificant].
  intros Ht Hdf. rewrite (abs_of_zero _ Ht), (tCDF_at_zero M fuel _ Hdf) in Hcdf.
  injection Hcdf as <-. split; reflexivity.
Qed.

(** Every rating 8 against every rating 6. *)
Lemma zero_spread_not_significant_witness :
  exists r,
    independentTTest StubMath (101 + 0) [8; 8; 8] [6; 6; 6] = Some r
    /\ degreesOfFreedom r = nan /\ pValue r = nan /\ isSignificant r = false
    /\ is_finite (tStatistic r) = false /\ is_finite (effectSize r) = false.
Proof.
  apply zero_spread_not_significant.
  - reflexivity.
  - discriminate.
  - discriminate.
  - reflexivity.
  - reflexivity.
  - reflexivity.
  - reflexivity.
Defined.

(** The samples [1, 2, 3] and [3, 2, 1]. *)
Lemma zero_statistic_pvalue_one_witness :
  exists r,
    independentTTest StubMath 101 [1; 2; 3] [3; 2; 1] = Some r
    /\ pValue r = 1 /\ isSignificant r = false.
Proof.
  eexists. split; [vm_compute; reflexivity|].
  apply (zero_statistic_pvalue_one StubMath 101 [1; 2; 3] [3; 2; 1]);
    reflexivity.
Defined.

(** * The mock provider's rating *)

Module RoundFacts.
Import IEEE.
Local Open Scope Z_scope.

Lemma shr_nonneg mrs e n : 0 <= shr_m mrs -> 0 <= shr_m (fst (shr mrs e n)).
Proof.
  intros H. unfold shr. destruct n as [|p|p]; simpl fst; auto.
  rewrite iter_shr_1_m by exact H. apply Z.div_pos; lia.
Qed.

Lemma shr_fexp_nonneg m e l : 0 <= m -> 0 <= shr_m (fst (shr_fexp prec emax m e l)).
Proof.
  intros H. unfold shr_fexp. apply shr_nonneg.
  destruct l as [|[]]; simpl; exact H.
Qed.

(** Rounding never produces NaN. *)
Lemma binary_round_aux_not_nan s m e l :
  0 <= m -> binary_round_aux prec emax s m e l <> S754_nan.
Proof.
  intros H. unfold binary_round_aux.
  pose proof (shr_fexp_nonneg m e l H) as H1.
  destruct (shr_fexp prec emax m e l) as [mrs e']. simpl fst in H1.
  pose proof (round_nearest_even_ge (shr_m mrs) (loc_of_shr_record mrs)) as H2.
  pose proof (shr_fexp_nonneg (round_nearest_even (shr_m mrs) (loc_of_shr_record mrs))
                e' loc_Exact ltac:(lia)) as H3.
  destruct (shr_fexp prec emax _ e' loc_Exact) as [mrs' e'']. simpl fst in H3.
  destruct (shr_m mrs') as [|p|p]; try lia; try discriminate.
  destruct (e'' <=? emax - prec); discriminate.
Qed.

Lemma binary_round_not_nan s m e : binary_round prec emax s m e <> S754_nan.
Proof.
  unfold binary_round. destruct (shl_align m e _) as [mz ez].
  apply binary_round_aux_not_nan. lia.
Qed.

Lemma binary_normalize_not_nan m e sz : binary_normalize prec emax m e sz <> S754_nan.
Proof.
  unfold binary_normalize. destruct m; try discriminate; apply binary_round_not_nan.
Qed.

Lemma SFadd_not_nan x s m e :
  x <> S754_nan -> SF64add (S754_finite s m e) x <> S754_nan.
Proof.
  intros H. destruct x as [sx|sx| |sx mx ex]; try congruence; try discriminate.
  apply binary_normalize_not_nan.
Qed.

Lemma SFsub_not_nan x s m e :
  x <> S754_nan -> SF64sub x (S754_finite s m e) <> S754_nan.
Proof.
  intros H. destruct x as [sx|sx| |sx mx ex]; try congruence; try discriminate.
  apply binary_normalize_not_nan.
Qed.

Lemma SFmul_not_nan x s m e :
  x <> S754_nan -> SF64mul x (S754_finite s m e) <> S754_nan.
Proof.
  intros H. destruct x as [sx|sx| |sx mx ex]; try congruence; try discriminate.
  apply binary_round_aux_not_nan. lia.
Qed.

End RoundFacts.

Lemma is_nan_false x : is_nan x = false <-> Prim2SF x <> S754_nan.
Proof.
  unfold is_nan. rewrite FloatAxioms.eqb_spec. split.
  - intros H E. rewrite E in H. discriminate.
  - intros H. unfold SFeqb. rewrite IEEE.SFcompare_refl by exact H. reflexivity.
Qed.

Module ClampFacts.
Import IEEE RoundFacts.

Lemma not_nan_sum base u s m e :
  Prim2SF base = S754_finite s m e -> is_nan u = false ->
  is_nan (base + (u - 0.5) * 4) = false.
Proof.
  intros Hb Hu. apply is_nan_false in Hu. apply is_nan_false.
  rewrite add_spec, mul_spec, sub_spec, Hb.
  change (Prim2SF 0.5) with (S754_finite false 4503599627370496 (-53)).
  change (Prim2SF 4) with (S754_finite false 4503599627370496 (-50)).
  apply SFadd_not_nan, SFmul_not_nan, SFsub_not_nan, Hu.
Qed.

(** What the clamp [Math.min(10, Math.max(1, y))] returns for a number. *)
Lemma clamp_cases y :
  is_nan y = false ->
  Math_min 10 (Math_max 1 y) = 1
  \/ Math_min 10 (Math_max 1 y) = 10
  \/ (Math_min 10 (Math_max 1 y) = y /\ (1 <? y) = true /\ (y <? 10) = true).
Proof.
  intros Hy. unfold Math_max. rewrite Hy.
  change (is_nan 1) with false. cbn [orb].
  destruct (1 <? y) eqn:H1.
  - unfold Math_min. rewrite Hy. change (is_nan 10) with false. cbn [orb].
    destruct (10 <? y) eqn:H10; [right; left; reflexivity|].
    destruct (y <? 10) eqn:Hy10; [right; right; auto|].
    change (get_sign 10) with false. cbv iota.
    right. left. apply Prim2SF_inj.
    revert H1 H10 Hy10. rewrite !FloatAxioms.ltb_spec.
    change (Prim2SF 1) with (S754_finite false 4503599627370496 (-52)).
    change (Prim2SF 10) with (S754_finite false 5629499534213120 (-49)).
    destruct (Prim2SF y) as [sy|sy| |sy my ey]; try discriminate;
      try (destruct sy; discriminate).
    unfold SFltb, SFcompare. destruct sy; [discriminate|]. intros _.
    destruct (Z.compare_spec (-49) ey) as [<-|Hlt|Hgt].
    + change (-49 ?= -49)%Z with Eq. cbv iota.
      rewrite !Pos.compare_cont_spec. cbn [Pos.switch_Eq].
      destruct (Pos.compare_spec 5629499534213120 my) as [<-|Hc|Hc].
      * reflexivity.
      * intros H. discriminate H.
      * intros _. unfold Pos.lt in Hc. rewrite Hc. intros H. discriminate H.
    + intros H. discriminate H.
    + intros _. apply Z.compare_lt_iff in Hgt. rewrite Hgt.
      intros H. discriminate H.
  - left.
    assert (Hw : (if y <? 1 then 1 else if get_sign 1 then y else 1) = 1)
      by (destruct (y <? 1); reflexivity).
    rewrite Hw. reflexivity.
Qed.

End ClampFacts.

Module RoundRange.
Import IEEE.
Local Open Scope Z_scope.

(** A valid binary64 number with exponent above [-1074] has a full
    mantissa of 53 bits. *)
Lemma valid_full_mantissa s m e :
  valid_binary (S754_finite s m e) = true -> -1074 < e ->
  2 ^ 52 <= Z.pos m < 2 ^ 53.
Proof.
  unfold FloatAxioms.valid_binary, SpecFloat.valid_binary, bounded, canonical_mantissa.
  intros H He. apply andb_prop in H as [H _]. apply Z.eqb_eq in H.
  change (Z.pos (digits2_pos m)) with (Zdigits2 (Z.pos m)) in H.
  unfold fexp, SpecFloat.emin, prec, emax in H.
  assert (HD : Zdigits2 (Z.pos m) = 53) by lia.
  pose proof (Zdigits2_bounds m) as HB. rewrite HD in HB. exact HB.
Qed.

Lemma round_between y :
  (1 <? y)%float = true -> (y <? 10)%float = true ->
  exists k, 1 <= k <= 10 /\ Math_round y = num_of_Z k.
Proof.
  rewrite !FloatAxioms.ltb_spec. unfold Math_round.
  pose proof (Prim2SF_valid y) as Hv.
  change (Prim2SF 1) with (S754_finite false 4503599627370496 (-52)).
  change (Prim2SF 10) with (S754_finite false 5629499534213120 (-49)).
  destruct (Prim2SF y) as [sy|sy| |sy m e]; try discriminate;
    try (destruct sy; discriminate).
  unfold SFltb, SFcompare. destruct sy; [discriminate|].
  intros H1 H10.
  assert (He : -52 <= e <= -49).
  { split.
    - destruct (Z.compare_spec (-52) e); try discriminate; lia.
    - destruct (Z.compare_spec e (-49)); try discriminate; lia. }
  destruct (valid_full_mantissa false m e Hv ltac:(lia)) as [Hlo Hhi].
  assert (Hten : e = -49 -> Z.pos m < 5629499534213120).
  { intros ->. revert H10. rewrite Z.compare_refl, Pos.compare_cont_spec.
    cbn [Pos.switch_Eq].
    destruct (Pos.compare_spec m 5629499534213120) as [Hc|Hc|Hc];
      try discriminate.
    intros _. apply Pos2Z.pos_lt_pos in Hc. exact Hc. }
  clear H1 H10 Hv.
  change (2 ^ 52) with 4503599627370496 in Hlo.
  change (2 ^ 53) with 9007199254740992 in Hhi.
  assert (Hneg : (0 <=? e) = false) by (apply Z.leb_gt; lia).
  rewrite Hneg. cbn [cond_Zopp]. cbv zeta.
  set (z := (2 * Z.pos m + 2 ^ (- e)) / 2 ^ (1 - e)).
  assert (Hz : 1 <= z <= 10).
  { unfold z.
    assert (Hcases : e = -52 \/ e = -51 \/ e = -50 \/ e = -49) by lia.
    destruct Hcases as [->|[->|[->|Hc]]].
    - change (2 ^ (- -52)) with 4503599627370496.
      change (2 ^ (1 - -52)) with 9007199254740992.
      split; [apply Z.div_le_lower_bound|apply Z.lt_succ_r, Z.div_lt_upper_bound];
        lia.
    - change (2 ^ (- -51)) with 2251799813685248.
      change (2 ^ (1 - -51)) with 4503599627370496.
      split; [apply Z.div_le_lower_bound|apply Z.lt_succ_r, Z.div_lt_upper_bound];
        lia.
    - change (2 ^ (- -50)) with 1125899906842624.
      change (2 ^ (1 - -50)) with 2251799813685248.
      split; [apply Z.div_le_lower_bound|apply Z.lt_succ_r, Z.div_lt_upper_bound];
        lia.
    - specialize (Hten Hc). subst e.
      change (2 ^ (- -49)) with 562949953421312.
      change (2 ^ (1 - -49)) with 1125899906842624.
      split; [apply Z.div_le_lower_bound|apply Z.lt_succ_r, Z.div_lt_upper_bound];
        lia. }
  exists z. split; [exact Hz|].
  destruct (Z.eqb_spec z 0); [lia|reflexivity].
Qed.

End RoundRange.

Module MockRatingFacts.
Import Registry MockRating.

Lemma num_of_Z_nat k : (0 <= k)%Z -> num_of_Z k = num_of_nat (Z.to_nat k).
Proof.
  intros H. unfold num_of_nat. rewrite Z2Nat.id by exact H.
  destruct k; try reflexivity. lia.
Qed.

Lemma baseRating_shape hash :
  (0 <= hash)%Z ->
  exists m e, Prim2SF (num_of_Z (3 + Z.rem hash 5)) = S754_finite false m e.
Proof.
  intros H. pose proof (Z.rem_bound_pos hash 5 H ltac:(lia)) as Hr.
  assert (Hc : (Z.rem hash 5 = 0 \/ Z.rem hash 5 = 1 \/ Z.rem hash 5 = 2
                \/ Z.rem hash 5 = 3 \/ Z.rem hash 5 = 4)%Z) by lia.
  destruct Hc as [->|[->|[->|[->| ->]]]]; eexists; eexists; reflexivity.
Qed.

(** X11: the mock provider keeps its promise of a rating between 1 and 10:
    whatever the image, the question, the delay and the numbers drawn, as
    long as [Math.random()] gives a number, [rateImage] returns one of the
    integers 1, ..., 10. *)
Theorem rateImage_range (delay : delay_range) (random1 random2 : float)
    (imageBase64 question : list Z)
    (Hrandom : is_nan random2 = false) :
  exists n, (1 <= n <= 10)%nat
    /\ rateImage delay random1 random2 imageBase64 question = num_of_nat n.
Proof.
  unfold rateImage. cbv zeta.
  destruct (baseRating_shape (Mock.simpleHash imageBase64)) as (m & e & Hb).
  { unfold Mock.simpleHash. cbv zeta. apply Z.abs_nonneg. }
  fold (Mock.baseRating imageBase64) in Hb.
  pose proof (ClampFacts.not_nan_sum _ random2 false m e Hb Hrandom) as Hy.
  destruct (ClampFacts.clamp_cases _ Hy) as [-> | [-> | (-> & H1 & H10)]].
  - exists 1%nat. split; [lia|reflexivity].
  - exists 10%nat. split; [lia|reflexivity].
  - destruct (RoundRange.round_between _ H1 H10) as (k & Hk & ->).
    exists (Z.to_nat k). split; [lia|]. apply num_of_Z_nat. lia.
Qed.

Lemma rateImage_range_witness :
  exists n, (1 <= n <= 10)%nat
    /\ rateImage {| delay_min := 20; delay_max := 50 |} 0.25 0.75
         [105%Z; 109%Z; 103%Z] [] = num_of_nat n.
Proof. apply rateImage_range. reflexivity. Defined.
End MockRatingFacts.

(** ** Negative integers as numbers *)






(** * The registry and the hook: facts *)

Module RegistryFacts.
Import Registry.


End RegistryFacts.

Module HookFacts.
Import Registry Hook HookSpec.

Lemma bump_0 st : bump 0 st = st.
Proof. destruct st as [r [c t] res e]. reflexivity. Qed.

Lemma bump_bump a b st : bump a (bump b st) = bump (a + b) st.
Proof. unfold bump. cbn. rewrite Nat.iter_add. reflexivity. Qed.

(** The rating loop, with its number counter, does what [collect] does. *)
Lemma rate_loop_collect env image question n : forall m k c fuel,
  (k + m = n)%nat -> (Z.of_nat n < 2 ^ 53)%Z -> (m < fuel)%nat ->
  exists bodies,
    for_loop fuel (fun i => i <? num_of_nat n) (fun i => i + 1)
      (rate_body env image question) (num_of_nat k) c
    = Some (collect env image question m c, bodies).
Proof.
  induction m as [|m IH]; intros k c fuel Hk Hn Hfuel;
    (destruct fuel as [|fuel]; [lia|]); cbn [for_loop collect].
  - rewrite num_ltb by lia. replace (k <? n)%nat with false
      by (symmetry; apply Nat.ltb_ge; lia).
    eexists. reflexivity.
  - rewrite num_ltb by lia. replace (k <? n)%nat with true
      by (symmetry; apply Nat.ltb_lt; lia).
    unfold rate_body at 1.
    destruct (env_rate env image question (col_calls c)) as [rating|message].
    + rewrite num_succ by lia.
      destruct (IH (S k)
                  {| col_ratings := col_ratings c ++ [rating];
                     col_state := bump 1 (col_state c);
                     col_calls := S (col_calls c);
                     col_thrown := None |} fuel) as [bodies Hb]; try lia.
      change (setProgress
                (fun p => {| current := current p + 1; total := total p |})
                (col_state c)) with (bump 1 (col_state c)).
      rewrite Hb. eexists. reflexivity.
    + eexists. reflexivity.
Qed.

Lemma rate_loop_spec env image question n c fuel :
  (Z.of_nat n < 2 ^ 53)%Z -> (n < fuel)%nat ->
  exists bodies,
    rate_loop fuel env image question (num_of_nat n) c
    = Some (collect env image question n c, bodies).
Proof.
  intros Hn Hfuel. unfold rate_loop.
  apply (rate_loop_collect env image question n n 0%nat c fuel); lia.
Qed.

(** [collect] when every call gives a rating. *)
Lemma collect_rated env image question : forall m (r : nat -> float) c,
  col_thrown c = None ->
  (forall j, (j < m)%nat ->
     env_rate env image question (col_calls c + j) = Rated (r j)) ->
  collect env image question m c
  = {| col_ratings := col_ratings c ++ map r (seq 0 m);
       col_state := bump m (col_state c);
       col_calls := col_calls c + m;
       col_thrown := None |}.
Proof.
  induction m as [|m IH]; intros r c Hc Hr; cbn [collect].
  - destruct c as [rs st calls th]. cbn in *. subst th.
    rewrite app_nil_r, bump_0, Nat.add_0_r. reflexivity.
  - pose proof (Hr 0%nat ltac:(lia)) as H0. rewrite Nat.add_0_r in H0.
    rewrite H0.
    rewrite (IH (fun j => r (S j))).
    + cbn [col_ratings col_state col_calls seq map].
      rewrite bump_bump, <- app_assoc, <- seq_shift, map_map. cbn [app].
      f_equal; [f_equal; lia|lia].
    + reflexivity.
    + intros j Hj. cbn [col_calls]. rewrite <- (Hr (S j)) by lia. f_equal. lia.
Qed.

(** [collect] when call number [j] of the loop is the first to fail. *)
Lemma collect_failed env image question message : forall m j (r : nat -> float) c,
  (j < m)%nat ->
  (forall i, (i < j)%nat ->
     env_rate env image question (col_calls c + i) = Rated (r i)) ->
  env_rate env image question (col_calls c + j) = Failed message ->
  collect env image question m c
  = {| col_ratings := col_ratings c ++ map r (seq 0 j);
       col_state := bump j (col_state c);
       col_calls := S (col_calls c + j);
       col_thrown := Some message |}.
Proof.
  induction m as [|m IH]; intros j r c Hj Hr Hf; [lia|]. cbn [collect].
  destruct j as [|j].
  - rewrite Nat.add_0_r in Hf. rewrite Hf.
    cbn [seq map]. rewrite app_nil_r, bump_0, Nat.add_0_r. reflexivity.
  - pose proof (Hr 0%nat ltac:(lia)) as H0. rewrite Nat.add_0_r in H0.
    rewrite H0.
    rewrite (IH j (fun i => r (S i))).
    + cbn [col_ratings col_state col_calls seq map].
      rewrite bump_bump, <- app_assoc, <- seq_shift, map_map. cbn [app].
      f_equal; [f_equal; lia|f_equal; lia].
    + lia.
    + intros i Hi. cbn [col_calls]. rewrite <- (Hr (S i)) by lia. f_equal. lia.
    + cbn [col_calls]. rewrite <- Hf. f_equal. lia.
Qed.

(** The descriptive fields of the record of [independentTTest]. *)
Lemma independentTTest_fields M fuel s1 s2 :
  exists r,
    independentTTest M (101 + fuel) s1 s2 = Some r
    /\ mean1 r = mean s1 /\ mean2 r = mean s2
    /\ std1 r = standardDeviation M s1 /\ std2 r = standardDeviation M s2.
Proof.
  unfold independentTTest. cbv zeta.
  match goal with
  | |- context [tCDF M (101 + fuel) ?t ?df] =>
      destruct (tCDF_total M fuel t df) as [cdf ->]
  end.
  cbn [bind]. eexists. repeat split.
Qed.

Section Run.

Variable M : MathLib.
Variable inherited : string -> bool.
Variable env : environment.
Variables image1 image2 question : list Z.
Variable name : string.
Variable cfg : config.

Lemma progress_after n k :
  (Z.of_nat (2 * n) < 2 ^ 53)%Z -> (k <= 2 * n)%nat ->
  bump k (started (num_of_nat n))
  = {| isRunning := true;
       progress := {| current := num_of_nat k; total := num_of_nat (2 * n) |};
       results := None;
       error := None |}.
Proof.
  intros Hn Hk. unfold bump, started.
  cbn [progress current total isRunning results error].
  rewrite num_iter, num_double by lia. reflexivity.
Qed.

(** With every call rated, the two loops collect [n] ratings each and
    hand them to [independentTTest]. *)
Lemma run_rated (fuel n : nat) (st0 : hook_state)
    (provider : Registry.provider) (r1 r2 : nat -> float) :
  (Z.of_nat (2 * n) < 2 ^ 53)%Z ->
  getProvider inherited name cfg = Returned provider ->
  env_available env = true ->
  (forall j, (j < n)%nat -> env_rate env image1 question j = Rated (r1 j)) ->
  (forall j, (j < n)%nat -> env_rate env image2 question (n + j) = Rated (r2 j)) ->
  exists stats,
    independentTTest M (101 + (n + fuel)) (map r1 (seq 0 n)) (map r2 (seq 0 n))
    = Some stats
    /\ runExperiment M inherited env (101 + (n + fuel)) st0
         image1 image2 question name cfg (num_of_nat n)
       = Some (published M provider (map r1 (seq 0 n)) (map r2 (seq 0 n)) stats n).
Proof.
  intros Hn Hget Havailable H1 H2.
  set (ratings1 := map r1 (seq 0 n)). set (ratings2 := map r2 (seq 0 n)).
  destruct (independentTTest_fields M (n + fuel) ratings1 ratings2)
    as (stats & Hstats & Hm1 & Hm2 & Hs1 & Hs2).
  exists stats. split; [exact Hstats|].
  unfold runExperiment. cbv zeta. rewrite Hget, Havailable. cbn [negb].
  change (setProgress _ (setResults None (setError None (setIsRunning true st0))))
    with (started (num_of_nat n)).
  destruct (rate_loop_spec env image1 question n
              {| col_ratings := []; col_state := started (num_of_nat n);
                 col_calls := 0; col_thrown := None |} (101 + (n + fuel)))
    as [b1 ->]; try lia.
  cbn [bind fst].
  rewrite (collect_rated env image1 question n r1) by (auto; exact H1).
  cbn [col_thrown col_state col_calls col_ratings app].
  change (0 + n)%nat with n.
  destruct (rate_loop_spec env image2 question n
              {| col_ratings := [];
                 col_state := bump n (started (num_of_nat n));
                 col_calls := n; col_thrown := None |} (101 + (n + fuel)))
    as [b2 ->]; try lia.
  cbn [bind fst].
  rewrite (collect_rated env image2 question n r2) by (auto; exact H2).
  cbn [col_thrown col_state col_calls col_ratings app].
  fold ratings1 ratings2. rewrite Hstats. cbn [bind].
  rewrite bump_bump, progress_after by lia.
  rewrite Hm1, Hm2, Hs1, Hs2.
  replace (n + n)%nat with (2 * n)%nat by lia. reflexivity.
Qed.

(** X13: a run in which every call of [rateImage] gives a rating: [n] ratings
    per image, in call order, go to [independentTTest], whose result is
    published with the ratings, their means and standard deviations and
    the provider's description; no error is published, the hook is no
    longer running, and the progress ends at [2n] of [2n]. *)
Theorem runExperiment_success (fuel n : nat) (st0 : hook_state)
    (provider : Registry.provider) (r1 r2 : nat -> float)
    (Hn : (Z.of_nat (2 * n) < 2 ^ 53)%Z)
    (Hget : getProvider inherited name cfg = Returned provider)
    (Havailable : env_available env = true)
    (H1 : forall j, (j < n)%nat -> env_rate env image1 question j = Rated (r1 j))
    (H2 : forall j, (j < n)%nat ->
            env_rate env image2 question (n + j) = Rated (r2 j)) :
  let ratings1 := map r1 (seq 0 n) in
  let ratings2 := map r2 (seq 0 n) in
  exists stats,
    independentTTest M (101 + (n + fuel)) ratings1 ratings2 = Some stats
    /\ runExperiment M inherited env (101 + (n + fuel)) st0
         image1 image2 question name cfg (num_of_nat n)
       = Some
           {| isRunning := false;
              progress :=
                {| current := num_of_nat (2 * n); total := num_of_nat (2 * n) |};
              results :=
                Some
                  {| res_image1 :=
                       {| iv_ratings := ratings1; iv_mean := mean ratings1;
                          iv_std := standardDeviation M ratings1 |};
                     res_image2 :=
                       {| iv_ratings := ratings2; iv_mean := mean ratings2;
                          iv_std := standardDeviation M ratings2 |};
                     res_statistics :=
                       {| sv_tStatistic := tStatistic stats;
                          sv_degreesOfFreedom := degreesOfFreedom stats;
                          sv_pValue := pValue stats;
                          sv_isSignificant := isSignificant stats;
                          sv_effectSize := effectSize stats |};
                     res_provider := getInfo provider |};
              error := None |}.
Proof.
  intros ratings1 ratings2.
  exact (run_rated fuel n st0 provider r1 r2 Hn Hget Havailable H1 H2).
Qed.

Lemma rating_of_rated image j rating :
  env_rate env image question j = Rated rating ->
  env_rate env image question j = Rated (rating_of env question image j).
Proof. unfold rating_of. intros ->. reflexivity. Qed.

(** X14: a run whose call [k] of [rateImage] is the first to fail: the loops
    stop there, the message of the error is published, no results are, and
    the progress stays at [k] of [2n]. *)
Theorem runExperiment_first_failure (fuel n k : nat) (st0 : hook_state)
    (provider : Registry.provider) (message : string)
    (Hn : (Z.of_nat (2 * n) < 2 ^ 53)%Z)
    (Hget : getProvider inherited name cfg = Returned provider)
    (Havailable : env_available env = true)
    (Hk : (k < 2 * n)%nat)
    (Hbefore : forall j, (j < k)%nat ->
       exists rating, env_rate env (image_of image1 image2 n j) question j = Rated rating)
    (Hfail : env_rate env (image_of image1 image2 n k) question k = Failed message) :
  runExperiment M inherited env (101 + (n + fuel)) st0
    image1 image2 question name cfg (num_of_nat n)
  = Some
      {| isRunning := false;
         progress := {| current := num_of_nat k; total := num_of_nat (2 * n) |};
         results := None;
         error := Some message |}.
Proof.
  unfold runExperiment. cbv zeta. rewrite Hget, Havailable. cbn [negb].
  change (setProgress _ (setResults None (setError None (setIsRunning true st0))))
    with (started (num_of_nat n)).
  destruct (rate_loop_spec env image1 question n
              {| col_ratings := []; col_state := started (num_of_nat n);
                 col_calls := 0; col_thrown := None |} (101 + (n + fuel)))
    as [b1 ->]; try lia.
  cbn [bind fst].
  destruct (Nat.ltb_spec k n) as [Hlt|Hge].
  - assert (Hfail1 : env_rate env image1 question k = Failed message).
    { revert Hfail. unfold image_of.
      destruct (Nat.ltb_spec k n); [auto|lia]. }
    rewrite (collect_failed env image1 question message n k (rating_of env question image1));
      cbn [col_calls]; auto.
    + cbn [col_thrown col_state]. unfold caught, setIsRunning, setError.
      rewrite progress_after by lia. reflexivity.
    + intros i Hi. destruct (Hbefore i Hi) as [rating Hr].
      revert Hr. unfold image_of.
      destruct (Nat.ltb_spec i n); [|lia].
      apply rating_of_rated.
  - rewrite (collect_rated env image1 question n (rating_of env question image1)); auto.
    + cbn [col_thrown col_state col_calls col_ratings app].
      change (0 + n)%nat with n.
      destruct (rate_loop_spec env image2 question n
                  {| col_ratings := [];
                     col_state := bump n (started (num_of_nat n));
                     col_calls := n; col_thrown := None |} (101 + (n + fuel)))
        as [b2 ->]; try lia.
      cbn [bind fst].
      rewrite (collect_failed env image2 question message n (k - n)
                 (fun j => rating_of env question image2 (n + j))); cbn [col_calls].
      * cbn [col_thrown col_state]. unfold caught, setIsRunning, setError.
        rewrite bump_bump, progress_after by lia.
        cbn [isRunning progress results error].
        replace (k - n + n)%nat with k by lia. reflexivity.
      * lia.
      * intros i Hi. destruct (Hbefore (n + i)%nat) as [rating Hr]; [lia|].
        revert Hr. unfold image_of.
        destruct (Nat.ltb_spec (n + i) n); [lia|].
        apply rating_of_rated.
      * replace (n + (k - n))%nat with k by lia.
        revert Hfail. unfold image_of.
        destruct (Nat.ltb_spec k n); [lia|auto].
    + cbn [col_calls]. intros j Hj.
      destruct (Hbefore j) as [rating Hr]; [lia|].
      revert Hr. unfold image_of.
      destruct (Nat.ltb_spec j n); [|lia].
      apply rating_of_rated.
Qed.

(** X15: without a provider no rating is asked for: a name that is not in
    the registry publishes the message of [getProvider], a provider that
    is not available the message of the hook; the progress stays at 0 of
    [sampleSize * 2], whatever the sample size. *)
Theorem runExperiment_without_provider (fuel : nat) (st0 : hook_state)
    (sampleSize : float) :
  let stopped message :=
    Some {| isRunning := false;
            progress := {| current := 0; total := sampleSize * 2 |};
            results := None;
            error := Some message |} in
  (~ In name listProviders -> inherited name = false ->
   runExperiment M inherited env fuel st0 image1 image2 question name cfg
     sampleSize
   = stopped ("Unknown provider: " ++ name ++ ". Available: mock, ollama")%string)
  /\ (In name listProviders -> env_available env = false ->
      runExperiment M inherited env fuel st0 image1 image2 question name cfg
        sampleSize
      = stopped ("Provider " ++ quote ++ name ++ quote
                 ++ " is not available. Make sure the service is running.")%string).
Proof.
  intros stopped. unfold runExperiment, getProvider, listProviders, providers, keys.
  cbn [map fst own_property]. cbv zeta. split.
  - intros Hnot ->.
    destruct (String.eqb_spec "mock" name) as [E|_];
      [exfalso; apply Hnot; left; exact E|].
    destruct (String.eqb_spec "ollama" name) as [E|_];
      [exfalso; apply Hnot; right; left; exact E|].
    reflexivity.
  - intros [<-|[<-|[]]] ->; reflexivity.
Qed.





End Run.

Lemma mock_ratings_length delay random image question first n :
  length (mock_ratings delay random image question first n) = n.
Proof. unfold mock_ratings. rewrite length_map, length_seq. reflexivity. Qed.

(** X17: an experiment with the mock provider never fails: for every image,
    question, configuration and sequence of random numbers, the run
    publishes results and no error, with [n] ratings per image, each the
    value of [rateImage] on the next two random numbers. *)
Theorem mock_experiment (M : MathLib) (inherited : string -> bool)
    (delay : delay_range) (random : nat -> float)
    (type_error : string -> string) (fuel n : nat) (st0 : hook_state)
    (image1 image2 question : list Z) (cfg : config)
    (Hn : (Z.of_nat (2 * n) < 2 ^ 53)%Z) :
  let ratings1 := mock_ratings delay random image1 question 0 n in
  let ratings2 := mock_ratings delay random image2 question n n in
  exists stats,
    independentTTest M (101 + (n + fuel)) ratings1 ratings2 = Some stats
    /\ runExperiment M inherited (mock_env delay random type_error)
         (101 + (n + fuel)) st0 image1 image2 question "mock" cfg (num_of_nat n)
       = Some (published M (construct MockClass cfg) ratings1 ratings2 stats n)
    /\ length ratings1 = n /\ length ratings2 = n.
Proof.
  intros ratings1 ratings2.
  destruct (run_rated M inherited (mock_env delay random type_error)
              image1 image2 question "mock" cfg fuel n st0
              (construct MockClass cfg)
              (fun j => MockRating.rateImage delay (random (2 * (0 + j))%nat)
                          (random (2 * (0 + j) + 1)%nat) image1 question)
              (fun j => MockRating.rateImage delay (random (2 * (n + j))%nat)
                          (random (2 * (n + j) + 1)%nat) image2 question))
    as (stats & Hstats & Hrun); auto.
  exists stats. split; [exact Hstats|]. split; [exact Hrun|].
  split; apply mock_ratings_length.
Qed.

Lemma runExperiment_success_witness :
  exists stats,
    independentTTest StubMath (101 + (2 + 0)) [4; 5] [7; 8] = Some stats
    /\ runExperiment StubMath es_inherited steady_env (101 + (2 + 0))
         initial_state [1%Z] [2%Z] [3%Z] "mock" empty_config 2
       = Some
           {| isRunning := false;
              progress := {| current := 4; total := 4 |};
              results :=
                Some
                  {| res_image1 :=
                       {| iv_ratings := [4; 5]; iv_mean := 4.5;
                          iv_std := standardDeviation StubMath [4; 5] |};
                     res_image2 :=
                       {| iv_ratings := [7; 8]; iv_mean := 7.5;
                          iv_std := standardDeviation StubMath [7; 8] |};
                     res_statistics :=
                       {| sv_tStatistic := tStatistic stats;
                          sv_degreesOfFreedom := degreesOfFreedom stats;
                          sv_pValue := pValue stats;
                          sv_isSignificant := isSignificant stats;
                          sv_effectSize := effectSize stats |};
                     res_provider := getInfo (construct MockClass empty_config) |};
              error := None |}.
Proof.
  apply (runExperiment_success StubMath es_inherited steady_env [1%Z] [2%Z] [3%Z]
           "mock" empty_config 0 2 initial_state (construct MockClass empty_config)
           (fun j => num_of_nat (4 + j + j / 2))
           (fun j => num_of_nat (4 + (2 + j) + (2 + j) / 2))).
  - reflexivity.
  - reflexivity.
  - reflexivity.
  - intros j Hj. reflexivity.
  - intros j Hj. reflexivity.
Defined.

Lemma runExperiment_first_failure_witness :
  runExperiment StubMath es_inherited failing_env (101 + (2 + 0))
    initial_state [1%Z] [2%Z] [3%Z] "mock" empty_config 2
  = Some
      {| isRunning := false;
         progress := {| current := 3; total := 4 |};
         results := None;
         error := Some "timeout"%string |}.
Proof.
  apply (runExperiment_first_failure StubMath es_inherited failing_env
           [1%Z] [2%Z] [3%Z] "mock" empty_config 0 2 3 initial_state
           (construct MockClass empty_config) "timeout").
  - reflexivity.
  - reflexivity.
  - reflexivity.
  - lia.
  - intros j Hj. exists 5.
    destruct j as [|[|[|j]]]; try reflexivity. lia.
  - reflexivity.
Defined.

Lemma runExperiment_without_provider_witness :
  runExperiment StubMath es_inherited absent_env 0 initial_state
    [1%Z] [2%Z] [3%Z] "openai" empty_config 50
  = Some {| isRunning := false;
            progress := {| current := 0; total := 100 |};
            results := None;
            error := Some "Unknown provider: openai. Available: mock, ollama"%string |}
  /\ runExperiment StubMath es_inherited absent_env 0 initial_state
       [1%Z] [2%Z] [3%Z] "ollama" empty_config 50
     = Some {| isRunning := false;
               progress := {| current := 0; total := 100 |};
               results := None;
               error := Some ("Provider " ++ quote ++ "ollama" ++ quote
                              ++ " is not available. Make sure the service is running.")%string |}.
Proof.
  split.
  - apply (runExperiment_without_provider StubMath es_inherited absent_env
             [1%Z] [2%Z] [3%Z] "openai" empty_config 0 initial_state 50);
      [|reflexivity].
    intros [H|[H|[]]]; discriminate H.
  - apply (runExperiment_without_provider StubMath es_inherited absent_env
             [1%Z] [2%Z] [3%Z] "ollama" empty_config 0 initial_state 50);
      [|reflexivity].
    right. left. reflexivity.
Defined.


Lemma mock_experiment_witness :
  exists stats,
    independentTTest StubMath (101 + (2 + 0))
      (mock_ratings {| delay_min := 20; delay_max := 50 |} (fun j => num_of_nat j / 8)
         [105%Z] [] 0 2)
      (mock_ratings {| delay_min := 20; delay_max := 50 |} (fun j => num_of_nat j / 8)
         [106%Z] [] 2 2)
    = Some stats
    /\ runExperiment StubMath es_inherited
         (mock_env {| delay_min := 20; delay_max := 50 |} (fun j => num_of_nat j / 8)
            (fun _ => "not a constructor"%string))
         (101 + (2 + 0)) initial_state [105%Z] [106%Z] [] "mock" empty_config
         (num_of_nat 2)
       = Some (published StubMath (construct MockClass empty_config)
                 (mock_ratings {| delay_min := 20; delay_max := 50 |}
                    (fun j => num_of_nat j / 8) [105%Z] [] 0 2)
                 (mock_ratings {| delay_min := 20; delay_max := 50 |}
                    (fun j => num_of_nat j / 8) [106%Z] [] 2 2)
                 stats 2)
    /\ length (mock_ratings {| delay_min := 20; delay_max := 50 |}
                 (fun j => num_of_nat j / 8) [105%Z] [] 0 2) = 2%nat
    /\ length (mock_ratings {| delay_min := 20; delay_max := 50 |}
                 (fun j => num_of_nat j / 8) [106%Z] [] 2 2) = 2%nat.
Proof.
  apply (mock_experiment StubMath es_inherited {| delay_min := 20; delay_max := 50 |}
           (fun j => num_of_nat j / 8) (fun _ => "not a constructor"%string)
           0 2 initial_state [105%Z] [106%Z] [] empty_config).
  reflexivity.
Defined.

End HookFacts.

(** * The order of the values of the CDF *)






